(** * Trace-tree construction of the workflow-run exporter (src/main.ts)

    A shallow embedding of [setSpanStatus], [processSteps], [processJob],
    [handleJobsAndSteps], [createSpansForJobsAndSteps],
    [removeUndefinedProperties], [createProvider], [fetchWorkflowJobs] and
    [run], and the properties of the span tree they build.

    - Data are as the source has them: jobs and steps are records whose
      nullable fields are [option]s, statuses and conclusions are strings
      compared with string literals, attribute tables are finite maps from
      string keys.
    - Effects are calls on collaborators (the tracer, span handles, the
      loggers).  A computation threads the log of the calls made so far and
      either returns or throws.  The tracer decides, call by call, whether a
      call returns or throws.
    - [Promise.all(jobs.map(async job => ...))] runs one unit of work per
      job.  The source fixes the order of the calls inside a unit, not the
      interleaving of the units, so every unit has a log of its own and the
      orchestrator's log records the fork. *)

From Stdlib Require Import ZArith String Ascii List Lia DecimalString.
From stdpp Require Import gmap strings list fin_maps.

Open Scope Z_scope.
Open Scope string_scope.
Open Scope list_scope.

(** ** Data model *)

(** A [Date] object is its time value: milliseconds since the epoch, or
    [None] for the Invalid Date (time value NaN). *)
Definition Date : Type := option Z.

(** [number | string], the two kinds of attribute value the source uses. *)
Inductive AttributeValue : Type :=
| ANumber (n : Z)
| AString (s : string).

#[global] Instance AttributeValue_eq_dec : EqDecision AttributeValue.
Proof. solve_decision. Defined.

(** [Record<string, number | string>]: a span's attribute table. *)
Abbreviation Attributes := (gmap string AttributeValue).

(** [Record<string, number | string | undefined>]: a key may be present
    and hold [undefined], which is [Some None] at lookup. *)
Abbreviation RawAttributes := (gmap string (option AttributeValue)).

(** [WorkflowStep]: the fields [processSteps] reads. *)
Record WorkflowStep : Type := {
  step_name : string;
  step_number : Z;
  step_status : string;
  step_conclusion : option string;
  step_started_at : option string;
  step_completed_at : option string
}.

(** [Job]: the fields the span builders read. *)
Record Job : Type := {
  job_id : Z;
  job_name : string;
  job_status : string;
  job_conclusion : option string;
  job_started_at : option string;
  job_completed_at : option string;
  job_steps : option (list WorkflowStep)
}.

(** Truthiness of a [string | null | undefined]: only a non-empty string
    is truthy. *)
Definition truthy (v : option string) : bool :=
  match v with
  | Some s => negb (s =? "")
  | None => false
  end.

(** [v === 'lit'] for a [string | null] field. *)
Definition strict_eq (v : option string) (lit : string) : bool :=
  match v with
  | Some s => s =? lit
  | None => false
  end.

(** ** removeUndefinedProperties *)

(** [acc[key] = value] on an object created by [{}], for a value that is
    a number or a string.  The assignment creates or overwrites the own
    property [key], with one exception: [__proto__] is found on
    [Object.prototype] as an accessor, so the assignment calls its setter,
    which ignores a value that is neither an object nor [null], and [acc] is
    left as it was. *)
Definition set_property (acc : Attributes) (key : string) (value : AttributeValue)
    : Attributes :=
  if key =? "__proto__" then acc else <[key := value]> acc.

(** [Object.entries(obj).reduce((acc, [key, value]) => { if (value !==
    undefined) acc[key] = value; return acc }, {})].  The table [obj] holds
    the own enumerable properties of the argument, and the reduction starts
    from a fresh [{}]. *)
Definition removeUndefinedProperties (obj : RawAttributes) : Attributes :=
  fold_left
    (fun (acc : Attributes) '(key, value) =>
       match value with
       | Some v => set_property acc key v
       | None => acc
       end)
    (map_to_list obj) ∅.

(** A sanitized table seen again at the sanitizer's input type. *)
Definition as_raw (m : Attributes) : RawAttributes := Some <$> m.

(** ** Spans, contexts and the calls made on collaborators *)

Inductive SpanStatusCode : Type := UNSET | OK | ERROR.

(** The argument of [span.setStatus]. *)
Record SpanStatus : Type := {
  status_code : SpanStatusCode;
  status_message : option string
}.

(** A span is an opaque handle chosen by the tracer. *)
Definition Span : Type := nat.

(** A context is [ROOT_CONTEXT] or the result of [trace.setSpan(ctx, span)]. *)
Inductive Context : Type :=
| ROOT_CONTEXT
| trace_setSpan (ctx : Context) (span : Span).

(** The [SpanOptions] the source passes: [root], [startTime], [attributes]. *)
Record SpanOptions : Type := {
  opt_root : bool;
  opt_startTime : option Date;
  opt_attributes : option Attributes
}.

#[local] Set Warnings "-register-all".

(** One call on a collaborator.  [Forked] records the units of work of a
    [Promise.all], each with the calls it made, in the order of the array. *)
Inductive call : Type :=
| TracerStartActiveSpan (name : string) (options : SpanOptions) (ctx : Context)
| SpanSetStatus (span : Span) (status : SpanStatus)
| SpanSetAttributes (span : Span) (attrs : Attributes)
| SpanEnd (span : Span) (endTime : option Date)
| CoreSetFailed (message : string)
| ConsoleError (message : string)
| DiagDebug (message : string)
| Forked (units : list (list call)).

(** A thrown value, as far as the source looks at it: its conversion to a
    string, in [`${e}`], and its [message], in [run].  An [Error] object has
    a [name] and a [message], and is converted by [Error.prototype.toString].
    A thrown value of another kind is the record with an empty name whose
    message is its conversion to a string; [run] reads the message of no
    value but an instance of [Error]. *)
Record Error : Type := {
  error_name : string;
  error_message : string
}.

(** [`${e}`], which is [Error.prototype.toString]: the message when the
    name is empty, the name when the message is empty, and otherwise both,
    joined by a colon and a space. *)
Definition error_to_string (e : Error) : string :=
  if error_name e =? "" then error_message e
  else if error_message e =? "" then error_name e
  else error_name e +:+ ": " +:+ error_message e.

Inductive Outcome (A : Type) : Type :=
| Returned (a : A)
| Thrown (e : Error).
Arguments Returned {A} a.
Arguments Thrown {A} e.

(** The tracer handle: which span [startActiveSpan] hands to its callback,
    given the calls made before in the same unit of work, and which context
    [context.active()] returns while the callback runs, given the context
    passed to [startActiveSpan] and the new span.  With a context manager
    registered that is the passed context with the new span set in it;
    without one, as in the action, whose [BasicTracerProvider] registers
    none, it is [ROOT_CONTEXT]. *)
Record Tracer : Type := {
  tracer_span : list call -> string -> SpanOptions -> Context -> Span;
  tracer_active : Context -> Span -> Context
}.

(** ** Computations

    A computation takes the calls made so far in its unit of work and gives
    back its outcome and the extended log. *)
Definition Eff (A : Type) : Type := list call -> Outcome A * list call.

Definition ret {A} (a : A) : Eff A := fun log => (Returned a, log).

Definition bind {A B} (m : Eff A) (k : A -> Eff B) : Eff B :=
  fun log =>
    match m log with
    | (Returned a, log1) => k a log1
    | (Thrown e, log1) => (Thrown e, log1)
    end.

Declare Scope eff_scope.
Delimit Scope eff_scope with eff.
Notation "x <- m ;; k" := (bind m (fun x => k))
  (at level 100, m at next level, right associativity) : eff_scope.
Notation "m ;; k" := (bind m (fun _ => k))
  (at level 100, right associativity) : eff_scope.

(** A pure value that may be an exception, used inside a computation. *)
Definition lift {A} (o : Outcome A) : Eff A := fun log => (o, log).

(** [try { body } catch (e) { handler(e) } finally { finalizer }]: the
    finalizer always runs; when it throws, its exception replaces the
    outcome of the [try]/[catch] part. *)
Definition try_catch_finally {A}
    (body : Eff A) (handler : Error -> Eff A) (finalizer : Eff unit) : Eff A :=
  fun log =>
    let '(r1, log1) := body log in
    let '(r2, log2) :=
      match r1 with
      | Returned a => (Returned a, log1)
      | Thrown e => handler e log1
      end in
    let '(r3, log3) := finalizer log2 in
    match r3 with
    | Returned _ => (r2, log3)
    | Thrown e => (Thrown e, log3)
    end.

(** [try { body } catch (e) { handler(e) }]. *)
Definition try_catch {A} (body : Eff A) (handler : Error -> Eff A) : Eff A :=
  fun log =>
    match body log with
    | (Returned a, log1) => (Returned a, log1)
    | (Thrown e, log1) => handler e log1
    end.

(** [for (const x of l) { body(x) }]: an exception leaves the loop. *)
Fixpoint for_of {A} (l : list A) (body : A -> Eff unit) : Eff unit :=
  match l with
  | [] => ret tt
  | x :: rest => (body x ;; for_of rest body)%eff
  end.

(** [Array.prototype.reduce] without an initial value: the first element
    seeds the accumulator, and an empty array is a [TypeError]. *)
Definition reduce {A} (callbackfn : A -> A -> A) (l : list A) : Outcome A :=
  match l with
  | [] => Thrown {| error_name := "TypeError";
                    error_message := "Reduce of empty array with no initial value" |}
  | x :: rest => Returned (fold_left callbackfn rest x)
  end.

(** The loggers [core.setFailed], [console.error] and [diag.debug] record
    their message and return. *)
Definition core_setFailed (message : string) : Eff unit :=
  fun log => (Returned tt, log ++ [CoreSetFailed message]).

Definition console_error (message : string) : Eff unit :=
  fun log => (Returned tt, log ++ [ConsoleError message]).

Definition diag_debug (message : string) : Eff unit :=
  fun log => (Returned tt, log ++ [DiagDebug message]).

(** The rejection of [Promise.all]: that of the first unit that threw, in
    the order of the array. *)
Fixpoint first_thrown (rs : list (Outcome unit)) : Outcome unit :=
  match rs with
  | [] => Returned tt
  | Returned _ :: rest => first_thrown rest
  | Thrown e :: _ => Thrown e
  end.

(** [await Promise.all(units)]: every unit runs to its end on a log of its
    own, whatever the other units do; the logs are recorded together. *)
Definition Promise_all (units : list (Eff unit)) : Eff unit :=
  fun log =>
    let settled := map (fun unit_of_work => unit_of_work []) units in
    (first_thrown (map fst settled), log ++ [Forked (map snd settled)]).

(** ** Reading a log *)

(** The names of the spans opened in a log, in order. *)
Definition opened_names (log : list call) : list string :=
  omap (fun c => match c with
                 | TracerStartActiveSpan name _ _ => Some name
                 | _ => None
                 end) log.

(** The [span.end] calls of a log, in order. *)
Definition is_SpanEnd (c : call) : bool :=
  match c with
  | SpanEnd _ _ => true
  | _ => false
  end.

Definition is_SpanSetStatus (c : call) : bool :=
  match c with
  | SpanSetStatus _ _ => true
  | _ => false
  end.

Definition end_calls (log : list call) : list call :=
  List.filter is_SpanEnd log.

(** ** A concrete environment

    Used to run the builders on concrete inputs. *)

Definition digit_of_ascii (c : ascii) : option Z :=
  let n := Z.of_nat (nat_of_ascii c) in
  if ((48 <=? n) && (n <=? 57))%Z then Some (n - 48) else None.

Definition two_digits (a b : ascii) : option Z :=
  match digit_of_ascii a, digit_of_ascii b with
  | Some x, Some y => Some (10 * x + y)
  | _, _ => None
  end.

(** Days from 1970-01-01 to the civil date [y-m-d] (proleptic Gregorian). *)
Definition days_from_civil (y m d : Z) : Z :=
  let y' := if (m <=? 2)%Z then y - 1 else y in
  let era := y' / 400 in
  let yoe := y' - era * 400 in
  let doy := (153 * (if (m >? 2)%Z then m - 3 else m + 9) + 2) / 5 + d - 1 in
  let doe := yoe * 365 + yoe / 4 - yoe / 100 + doy in
  era * 146097 + doe - 719468.

(** A [Date.parse] for the timestamps of the GitHub API,
    [YYYY-MM-DDTHH:MM:SSZ]; any other string is not a date. *)
Definition iso_parse (s : string) : option Z :=
  match list_ascii_of_string s with
  | [y1; y2; y3; y4; "-"%char; m1; m2; "-"%char; d1; d2; "T"%char;
     h1; h2; ":"%char; n1; n2; ":"%char; s1; s2; "Z"%char] =>
      match two_digits y1 y2, two_digits y3 y4, two_digits m1 m2,
            two_digits d1 d2, two_digits h1 h2, two_digits n1 n2,
            two_digits s1 s2 with
      | Some yh, Some yl, Some mo, Some dd, Some hh, Some mi, Some ss =>
          if ((1 <=? mo) && (mo <=? 12) && (1 <=? dd) && (dd <=? 31)
              && (hh <? 24) && (mi <? 60) && (ss <? 60))%Z
          then Some ((((days_from_civil (100 * yh + yl) mo dd * 24 + hh) * 60
                       + mi) * 60 + ss) * 1000)
          else None
      | _, _, _, _, _, _, _ => None
      end
  | _ => None
  end.

(** Collaborators that never throw. *)
Definition quiet : list call -> call -> option Error := fun _ _ => None.

(** Collaborators that refuse to open a span named [boom]. *)
Definition boom_span : list call -> call -> option Error :=
  fun _ c =>
    match c with
    | TracerStartActiveSpan name _ _ =>
        if name =? "boom"
        then Some {| error_name := "Error"; error_message := "span refused" |}
        else None
    | _ => None
    end.

(** A tracer whose handles number the calls of the unit of work, with no
    context manager registered. *)
Definition counting_tracer : Tracer :=
  {| tracer_span := fun log _ _ _ => length log;
     tracer_active := fun _ _ => ROOT_CONTEXT |}.

(** The same tracer with a context manager registered. *)
Definition managed_tracer : Tracer :=
  {| tracer_span := fun log _ _ _ => length log;
     tracer_active := trace_setSpan |}.

Definition sample_step (name : string) (number : Z)
    (conclusion started completed : option string) : WorkflowStep :=
  {| step_name := name; step_number := number; step_status := "completed";
     step_conclusion := conclusion; step_started_at := started;
     step_completed_at := completed |}.

Definition sample_job (name : string) (status : string)
    (conclusion completed : option string)
    (steps : option (list WorkflowStep)) : Job :=
  {| job_id := 123; job_name := name; job_status := status;
     job_conclusion := conclusion;
     job_started_at := Some "2023-01-01T00:00:00Z";
     job_completed_at := completed; job_steps := steps |}.

(** Two steps listed against their numbers: the first has no
    [completed_at], the second failed. *)
Definition two_steps : list WorkflowStep :=
  [ sample_step "test" 2 (Some "success") (Some "2023-01-01T00:02:00Z") None;
    sample_step "checkout" 1 (Some "failure") (Some "2023-01-01T00:01:00Z")
      (Some "2023-01-01T00:01:30Z") ].

(** A successful job completed at 00:10 whose steps are [two_steps]. *)
Definition green_job : Job :=
  sample_job "build" "completed" (Some "success")
    (Some "2023-01-01T00:10:00Z") (Some two_steps).

(** A failed job completed at 00:20. *)
Definition red_job : Job :=
  sample_job "test" "completed" (Some "failure")
    (Some "2023-01-01T00:20:00Z") None.

(** A job one of whose steps is named [boom]. *)
Definition boom_steps : list WorkflowStep :=
  [ sample_step "checkout" 1 (Some "success") (Some "2023-01-01T00:01:00Z")
      (Some "2023-01-01T00:01:30Z");
    sample_step "boom" 2 (Some "success") None None ].

Definition boom_job : Job :=
  sample_job "deploy" "completed" (Some "success")
    (Some "2023-01-01T00:30:00Z") (Some boom_steps).

(** A job that is still running. *)
Definition running_job : Job :=
  sample_job "lint" "in_progress" None None None.

(** A completed job whose [completed_at] is not a date. *)
Definition undated_job : Job :=
  sample_job "publish" "completed" (Some "success") (Some "not a date") None.

(** ** The action: payload, inputs and the calls of [run] *)

(** [full_name] and [html_url] of a repository of the payload. *)
Record RepositoryInfo : Type := {
  repository_full_name : string;
  repository_html_url : string
}.

(** [payload.workflow_run]: the fields [run] and [createProvider] read, at
    the types at which the attribute table takes them. *)
Record WorkflowRun : Type := {
  wr_id : Z;
  wr_name : string;
  wr_head_sha : string;
  wr_repository : RepositoryInfo;
  wr_workflow_id : Z;
  wr_run_number : Z;
  wr_run_attempt : Z;
  wr_event : string;
  wr_status : string;
  wr_conclusion : string;
  wr_created_at : string;
  wr_updated_at : string;
  wr_url : string;
  wr_html_url : string;
  wr_jobs_url : string;
  wr_logs_url : string;
  wr_check_suite_url : string;
  wr_artifacts_url : string;
  wr_cancel_url : string;
  wr_rerun_url : string;
  wr_workflow_url : string;
  wr_head_branch : string;
  wr_head_repository : RepositoryInfo;
  wr_run_started_at : option string
}.

(** [github.context]: the event name, the payload and [repo]. *)
Record GithubContext : Type := {
  ctx_eventName : string;
  ctx_workflow_run : WorkflowRun;
  ctx_owner : string;
  ctx_repo : string
}.

(** The values of [core.getInput]; an input that is not given is [""]. *)
Record ActionInputs : Type := {
  in_grafanaEndpoint : string;
  in_grafanaInstanceID : string;
  in_grafanaAccessPolicyToken : string;
  in_otelServiceName : string;
  in_githubToken : string
}.

(** [response.data] of the job listing. *)
Record JobsData : Type := {
  total_count : Z;
  data_jobs : list Job
}.

(** The response of [listJobsForWorkflowRun]; [run] reads its [data] and
    prints the whole of it. *)
Record ListJobsResponse : Type := {
  response_status : Z;
  response_data : JobsData
}.

(** The four attributes of the [Resource] of the tracer provider:
    [SERVICE_NAME], [SERVICE_INSTANCE_ID], [SERVICE_NAMESPACE] and
    [SERVICE_VERSION]. *)
Record ResourceAttributes : Type := {
  service_name : string;
  service_instance_id : string;
  service_namespace : string;
  service_version : string
}.

(** One call made by [run], [createProvider] or [fetchWorkflowJobs].
    [SpanBuilders] records the calls of [createSpansForJobsAndSteps]. *)
Inductive run_call : Type :=
| CoreDebug (message : string)
| RunSetFailed (message : string)
| GetOctokit (token : string)
| NewResource (attrs : ResourceAttributes)
| NewBasicTracerProvider (resource : ResourceAttributes)
| NewDiagConsoleLogger
| DiagSetLogger
| NewOTLPTraceExporter (url : string) (authorization : string)
| NewSimpleSpanProcessor
| AddSpanProcessor
| ProviderRegister
| ListJobsForWorkflowRun (owner repo : string) (run_id : Z)
| GetTracer (name : string)
| SpanBuilders (calls : list call).

(** What [run] meets at run time: which of its calls throw, what the job
    listing answers, which tracer the provider gives, which thrown values are
    instances of [Error], and the built-ins [Buffer...toString('base64')],
    [Number.prototype.toString] and [JSON.stringify]. *)
Record Runtime : Type := {
  rt_throws : list run_call -> run_call -> option Error;
  rt_listJobs : string -> string -> Z -> ListJobsResponse;
  rt_getTracer : string -> Tracer;
  rt_instanceof_Error : Error -> bool;
  rt_base64 : string -> string;
  rt_number_toString : Z -> string;
  rt_JSON_stringify : ListJobsResponse -> string
}.

(** Computations of [run]: as [Eff], over the calls of [run]. *)
Definition RunEff (A : Type) : Type :=
  list run_call -> Outcome A * list run_call.

Definition run_ret {A} (a : A) : RunEff A := fun rlog => (Returned a, rlog).

Definition run_bind {A B} (m : RunEff A) (k : A -> RunEff B) : RunEff B :=
  fun rlog =>
    match m rlog with
    | (Returned a, rlog1) => k a rlog1
    | (Thrown e, rlog1) => (Thrown e, rlog1)
    end.

Declare Scope run_scope.
Delimit Scope run_scope with run.
Notation "x <- m ;; k" := (run_bind m (fun x => k))
  (at level 100, m at next level, right associativity) : run_scope.
Notation "m ;; k" := (run_bind m (fun _ => k))
  (at level 100, right associativity) : run_scope.

(** [try { body } catch (e) { handler(e) }] in [run]. *)
Definition run_try_catch {A} (body : RunEff A) (handler : Error -> RunEff A)
    : RunEff A :=
  fun rlog =>
    match body rlog with
    | (Returned a, rlog1) => (Returned a, rlog1)
    | (Thrown e, rlog1) => handler e rlog1
    end.

(** [core.debug] and [core.setFailed] record their message and return. *)
Definition core_debug (message : string) : RunEff unit :=
  fun rlog => (Returned tt, rlog ++ [CoreDebug message]).

Definition run_setFailed (message : string) : RunEff unit :=
  fun rlog => (Returned tt, rlog ++ [RunSetFailed message]).

(** The span builders run from [run]: on a fresh tracer, their calls are
    recorded together. *)
Definition span_builders {A} (m : Eff A) : RunEff A :=
  fun rlog => (fst (m []), rlog ++ [SpanBuilders (snd (m []))]).

Definition is_RunSetFailed (c : run_call) : bool :=
  match c with
  | RunSetFailed _ => true
  | _ => false
  end.

Definition is_SpanBuilders (c : run_call) : bool :=
  match c with
  | SpanBuilders _ => true
  | _ => false
  end.

(** Collaborators whose spans refuse [setStatus]. *)
Definition status_refused : list call -> call -> option Error :=
  fun _ c =>
    match c with
    | SpanSetStatus _ _ =>
        Some {| error_name := "Error"; error_message := "status refused" |}
    | _ => None
    end.

(** A completed job whose [completed_at] is null. *)
Definition unstamped_job : Job :=
  sample_job "notify" "completed" (Some "success") None None.


Definition sample_repository : RepositoryInfo :=
  {| repository_full_name := "octo/demo";
     repository_html_url := "https://github.com/octo/demo" |}.

Definition sample_workflow_run : WorkflowRun :=
  {| wr_id := 456; wr_name := "CI"; wr_head_sha := "abcd1234";
     wr_repository := sample_repository; wr_workflow_id := 7;
     wr_run_number := 12; wr_run_attempt := 1; wr_event := "push";
     wr_status := "completed"; wr_conclusion := "failure";
     wr_created_at := "2023-01-01T00:00:00Z";
     wr_updated_at := "2023-01-01T00:20:00Z";
     wr_url := "https://api.github.com/runs/456";
     wr_html_url := "https://github.com/octo/demo/actions/runs/456";
     wr_jobs_url := "https://api.github.com/runs/456/jobs";
     wr_logs_url := "https://api.github.com/runs/456/logs";
     wr_check_suite_url := "https://api.github.com/check-suites/9";
     wr_artifacts_url := "https://api.github.com/runs/456/artifacts";
     wr_cancel_url := "https://api.github.com/runs/456/cancel";
     wr_rerun_url := "https://api.github.com/runs/456/rerun";
     wr_workflow_url := "https://api.github.com/workflows/7";
     wr_head_branch := "main"; wr_head_repository := sample_repository;
     wr_run_started_at := None |}.

Definition workflow_run_event : GithubContext :=
  {| ctx_eventName := "workflow_run"; ctx_workflow_run := sample_workflow_run;
     ctx_owner := "octo"; ctx_repo := "demo" |}.

Definition push_event : GithubContext :=
  {| ctx_eventName := "push"; ctx_workflow_run := sample_workflow_run;
     ctx_owner := "octo"; ctx_repo := "demo" |}.

Definition sample_inputs : ActionInputs :=
  {| in_grafanaEndpoint := "https://otlp.example/v1/traces";
     in_grafanaInstanceID := "1234";
     in_grafanaAccessPolicyToken := "secret";
     in_otelServiceName := "";
     in_githubToken := "ghs_0123456789" |}.

(** A run time in which no call of [run] throws and the job listing answers
    [jobs]; the text built-ins are stand-ins. *)
Definition sample_runtime (jobs : list Job) : Runtime :=
  {| rt_throws := fun _ _ => None;
     rt_listJobs := fun _ _ _ =>
       {| response_status := 200;
          response_data :=
            {| total_count := Z.of_nat (length jobs); data_jobs := jobs |} |};
     rt_getTracer := fun _ => counting_tracer;
     rt_instanceof_Error := fun _ => true;
     rt_base64 := fun s => s;
     rt_number_toString := fun n => NilZero.string_of_int (Z.to_int n);
     rt_JSON_stringify := fun _ => "{}" |}.

(** The span that a context makes the parent of the spans opened in it:
    the one set last, none in [ROOT_CONTEXT]. *)
Definition active_span (ctx : Context) : option Span :=
  match ctx with
  | ROOT_CONTEXT => None
  | trace_setSpan _ span => Some span
  end.

(** [opened_in parent c]: if [c] opens a span, it opens it in a context
    whose active span is [parent]. *)
Definition opened_in (parent : option Span) (c : call) : Prop :=
  ∀ name options ctx,
    c = TracerStartActiveSpan name options ctx → active_span ctx = parent.



(** A run time in which the job listing is refused. *)
Definition offline_runtime : Runtime :=
  {| rt_throws := fun _ c =>
       match c with
       | ListJobsForWorkflowRun _ _ _ =>
           Some {| error_name := "HttpError";
                   error_message := "Bad credentials" |}
       | _ => None
       end;
     rt_listJobs := fun _ _ _ =>
       {| response_status := 401;
          response_data := {| total_count := 0; data_jobs := [] |} |};
     rt_getTracer := fun _ => counting_tracer;
     rt_instanceof_Error := fun _ => true;
     rt_base64 := fun s => s;
     rt_number_toString := fun n => NilZero.string_of_int (Z.to_int n);
     rt_JSON_stringify := fun _ => "{}" |}.

(** ** The span builders of src/main.ts *)

Section SpanTree.

(** [Date.parse], the built-in: the time value of a string, [None] when
    the string is not a date (NaN). *)
Variable Date_parse : string -> option Z.

(** The behaviour of the tracer and of its spans: [throws log c] is the
    exception of the call [c] made after the calls of [log], if it throws. *)
Variable throws : list call -> call -> option Error.

(** [new Date(s)] has the time value [Date.parse(s)]. *)
Definition new_Date (s : string) : Date := Date_parse s.

(** [v ? new Date(v) : undefined]. *)
Definition date_or_undefined (v : option string) : option Date :=
  match v with
  | Some s => if truthy v then Some (new_Date s) else None
  | None => None
  end.

(** [v ? v : undefined], as an attribute value. *)
Definition string_or_undefined (v : option string) : option AttributeValue :=
  match v with
  | Some s => if truthy v then Some (AString s) else None
  | None => None
  end.

(** A call on the tracer or on a span: it is recorded, then returns or
    throws as the collaborator decides. *)
Definition invoke (c : call) : Eff unit :=
  fun log =>
    match throws log c with
    | Some e => (Thrown e, log ++ [c])
    | None => (Returned tt, log ++ [c])
    end.

Definition span_setStatus (span : Span) (status : SpanStatus) : Eff unit :=
  invoke (SpanSetStatus span status).

Definition span_setAttributes (span : Span) (attrs : Attributes) : Eff unit :=
  invoke (SpanSetAttributes span attrs).

Definition span_end (span : Span) (endTime : option Date) : Eff unit :=
  invoke (SpanEnd span endTime).

(** [tracer.startActiveSpan(name, options, ctx, fn)]: opens a span and
    runs [fn] on it at once.  The second argument of [fn] is what
    [context.active()] returns inside the callback. *)
Definition startActiveSpan {A} (tracer : Tracer) (name : string)
    (options : SpanOptions) (ctx : Context)
    (fn : Span -> Context -> Eff A) : Eff A :=
  fun log =>
    let c := TracerStartActiveSpan name options ctx in
    match throws log c with
    | Some e => (Thrown e, log ++ [c])
    | None =>
        let span := tracer_span tracer log name options ctx in
        fn span (tracer_active tracer ctx span) (log ++ [c])
    end.

(** The two status objects of [setSpanStatus]. *)
Definition status_of (success : bool) : SpanStatus :=
  if success then {| status_code := OK; status_message := Some "OK" |}
  else {| status_code := ERROR; status_message := Some "ERROR" |}.

Definition setSpanStatus (span : Span) (success : bool) : Eff unit :=
  if success then
    span_setStatus span {| status_code := OK; status_message := Some "OK" |}
  else
    span_setStatus span {| status_code := ERROR; status_message := Some "ERROR" |}.

(** *** processSteps *)

(** The options of a step span. *)
Definition step_span_options (step : WorkflowStep) : SpanOptions :=
  {| opt_root := false;
     opt_startTime := date_or_undefined (step_started_at step);
     opt_attributes := None |}.

(** The object literal that [processSteps] sanitizes. *)
Definition step_raw_attributes (step : WorkflowStep) : RawAttributes :=
  <["step.number" := Some (ANumber (step_number step))]>
  (<["step.status" := Some (AString (step_status step))]>
  (<["step.started_at" := string_or_undefined (step_started_at step)]>
  (<["step.conclusion" := string_or_undefined (step_conclusion step)]> ∅))).

Definition processSteps (steps : list WorkflowStep) (tracer : Tracer)
    (jobCtx : Context) : Eff unit :=
  for_of steps (fun step =>
    startActiveSpan tracer (step_name step) (step_span_options step) jobCtx
      (fun span _ =>
         span_setAttributes span
           (removeUndefinedProperties (step_raw_attributes step)) ;;
         setSpanStatus span (strict_eq (step_conclusion step) "success") ;;
         span_end span (date_or_undefined (step_completed_at step)))%eff).

(** *** processJob *)

(** The options of a job span. *)
Definition job_span_options (job : Job) : SpanOptions :=
  {| opt_root := false;
     opt_startTime := date_or_undefined (job_started_at job);
     opt_attributes :=
       Some (<["job.id" := ANumber (job_id job)]>
             (<["job.status" := AString (job_status job)]> ∅)) |}.

Definition processJob (job : Job) (tracer : Tracer) (parentCtx : Context)
    : Eff unit :=
  startActiveSpan tracer ("Job: " +:+ job_name job) (job_span_options job)
    parentCtx
    (fun span active =>
       try_catch_finally
         (setSpanStatus span (strict_eq (job_conclusion job) "success") ;;
          match job_steps job with
          | Some steps =>
              let jobCtx := trace_setSpan active span in
              processSteps steps tracer jobCtx
          | None => ret tt
          end)%eff
         (fun e => core_setFailed ("Failed to process job " +:+ job_name job))
         (span_end span (date_or_undefined (job_completed_at job)))).

(** *** handleJobsAndSteps *)

(** [jobs.some(job => job.conclusion !== 'success')]. *)
Definition anyJobError (jobs : list Job) : bool :=
  existsb (fun job => negb (strict_eq (job_conclusion job) "success")) jobs.

(** The unit of work of one job: the arrow function mapped over [jobs]. *)
Definition job_unit (tracer : Tracer) (span : Span)
    (processJobFn : Job -> Tracer -> Context -> Eff unit) (job : Job)
    : Eff unit :=
  try_catch
    (let ctx := trace_setSpan ROOT_CONTEXT span in
     processJobFn job tracer ctx)
    (fun error =>
       console_error ("Failed processing job " +:+ job_name job
                      +:+ " - " +:+ error_to_string error)).

Definition handleJobsAndSteps (tracer : Tracer) (span : Span)
    (jobs : list Job) (rootAttributes : RawAttributes)
    (processJobFn : Job -> Tracer -> Context -> Eff unit) : Eff unit :=
  (span_setStatus span
     {| status_code := if anyJobError jobs then ERROR else OK;
        status_message := None |} ;;
   span_setAttributes span (removeUndefinedProperties rootAttributes) ;;
   Promise_all (map (job_unit tracer span processJobFn) jobs))%eff.

(** *** createSpansForJobsAndSteps *)

(** [(job.completed_at && Date.parse(job.completed_at)) || 0]: a null or
    empty [completed_at], a NaN and a zero all give [0]. *)
Definition completed_ms (job : Job) : Z :=
  match job_completed_at job with
  | Some s =>
      if truthy (job_completed_at job) then
        match Date_parse s with
        | Some ms => if (ms =? 0)%Z then 0 else ms
        | None => 0
        end
      else 0
  | None => 0
  end.

(** The callback of the reduction: [prev] when it is strictly later. *)
Definition later_job (prev current : Job) : Job :=
  if (completed_ms prev >? completed_ms current)%Z then prev else current.

(** [jobs.filter(job => job.status === 'completed')]. *)
Definition completedJobs (jobs : list Job) : list Job :=
  filter (fun job => job_status job = "completed") jobs.

(** [completedJobs.reduce(...)]. *)
Definition lastCompletedJob (jobs : list Job) : Outcome Job :=
  reduce later_job (completedJobs jobs).

(** [`completed at: ${lastCompletedJob.completed_at}`]. *)
Definition completed_at_message (last : Job) : string :=
  "completed at: " +:+ match job_completed_at last with
                       | Some s => s
                       | None => "null"
                       end.

(** The [finally] block. *)
Definition end_root_span (span : Span) (jobs : list Job) : Eff unit :=
  (last <- lift (lastCompletedJob jobs) ;;
   diag_debug (completed_at_message last) ;;
   span_end span (date_or_undefined (job_completed_at last)))%eff.

(** The options of the root span. *)
Definition root_span_options (startTime : string) : SpanOptions :=
  {| opt_root := true;
     opt_startTime := Some (new_Date startTime);
     opt_attributes := None |}.

Definition createSpansForJobsAndSteps (startTime : string) (jobs : list Job)
    (tracer : Tracer) (rootAttributes : RawAttributes) : Eff unit :=
  startActiveSpan tracer "root" (root_span_options startTime) ROOT_CONTEXT
    (fun span _ =>
       try_catch_finally
         (handleJobsAndSteps tracer span jobs rootAttributes processJob)
         (fun e => core_setFailed ("Failed to parse jobs and steps: " +:+
                                   error_to_string e))
         (end_root_span span jobs)).

(** *** What the statements below speak of *)

(** The completion time of a job as a number: that of a non-empty
    [completed_at] that is a date. *)
Definition completion_time (job : Job) : option Z :=
  match job_completed_at job with
  | Some s => if truthy (job_completed_at job) then Date_parse s else None
  | None => None
  end.

(** The calls that open the spans. *)
Definition step_start_call (step : WorkflowStep) (jobCtx : Context) : call :=
  TracerStartActiveSpan (step_name step) (step_span_options step) jobCtx.

Definition job_start_call (job : Job) (parentCtx : Context) : call :=
  TracerStartActiveSpan ("Job: " +:+ job_name job) (job_span_options job)
    parentCtx.

Definition root_start_call (startTime : string) : call :=
  TracerStartActiveSpan "root" (root_span_options startTime) ROOT_CONTEXT.

(** The four calls made for one step on the span [span]. *)
Definition step_calls (step : WorkflowStep) (jobCtx : Context) (span : Span)
    : list call :=
  [ step_start_call step jobCtx;
    SpanSetAttributes span (removeUndefinedProperties (step_raw_attributes step));
    SpanSetStatus span (status_of (strict_eq (step_conclusion step) "success"));
    SpanEnd span (date_or_undefined (step_completed_at step)) ].

(** The status object that [handleJobsAndSteps] sets on the root span. *)
Definition root_status (jobs : list Job) : SpanStatus :=
  {| status_code := if anyJobError jobs then ERROR else OK;
     status_message := None |}.

(** The span that the tracer hands to [processJob] and to
    [createSpansForJobsAndSteps]. *)
Definition job_span (tracer : Tracer) (log : list call) (job : Job)
    (parentCtx : Context) : Span :=
  tracer_span tracer log ("Job: " +:+ job_name job) (job_span_options job)
    parentCtx.

Definition root_span (tracer : Tracer) (log : list call) (startTime : string)
    : Span :=
  tracer_span tracer log "root" (root_span_options startTime) ROOT_CONTEXT.

(** The context in which [processJob] runs [processSteps]:
    [trace.setSpan(context.active(), span)]. *)
Definition steps_context (tracer : Tracer) (parentCtx : Context) (span : Span)
    : Context :=
  trace_setSpan (tracer_active tracer parentCtx span) span.

(** A computation that only adds calls to the log. *)
Definition grows {A} (m : Eff A) : Prop :=
  ∀ log, ∃ new, snd (m log) = log ++ new.

(** The log when the [finally] block of [createSpansForJobsAndSteps]
    starts: the start call, the calls of [handleJobsAndSteps], and the
    failure message if that threw. *)
Definition log_before_finally (startTime : string) (jobs : list Job)
    (tracer : Tracer) (rootAttributes : RawAttributes) (log : list call)
    : list call :=
  let span := root_span tracer log startTime in
  let handled :=
    handleJobsAndSteps tracer span jobs rootAttributes processJob
      (log ++ [root_start_call startTime]) in
  match fst handled with
  | Returned _ => snd handled
  | Thrown e =>
      snd handled
      ++ [CoreSetFailed ("Failed to parse jobs and steps: " +:+ error_to_string e)]
  end.

(** The last sentence of C10 as it is worded: whenever the job selected
    by the [finally] block has no completion time, the last call ends a span
    without an end time. *)
Definition ends_without_time_when_selected_has_none (startTime : string)
    (jobs : list Job) (tracer : Tracer) (rootAttributes : RawAttributes)
    (log : list call) : Prop :=
  ∀ last,
    lastCompletedJob jobs = Returned last →
    completion_time last = None →
    ∃ before span,
      snd (createSpansForJobsAndSteps startTime jobs tracer rootAttributes log)
      = before ++ [SpanEnd span None].

(** The outcome of a call made after [log]. *)
Definition call_outcome (log : list call) (c : call) : Outcome unit :=
  match throws log c with
  | Some e => Thrown e
  | None => Returned tt
  end.

(** [on_later_span tracer log c]: if [c] sets a status, it sets it on a
    span that the tracer handed out after the calls of [log]. *)
Definition on_later_span (tracer : Tracer) (log : list call) (c : call)
    : Prop :=
  ∀ sp st, c = SpanSetStatus sp st →
    ∃ l name options ctx, sp = tracer_span tracer (log ++ l) name options ctx.



(** *** createProvider, fetchWorkflowJobs and run *)

(** What [run] meets at run time. *)
Variable rt : Runtime.

(** A call of [run] on a collaborator: it is recorded, then returns or
    throws. *)
Definition run_invoke (c : run_call) : RunEff unit :=
  fun rlog =>
    match rt_throws rt rlog c with
    | Some e => (Thrown e, rlog ++ [c])
    | None => (Returned tt, rlog ++ [c])
    end.

(** The attributes of the resource that [createProvider] builds. *)
Definition resource_attributes (otelServiceName : string)
    (payload : WorkflowRun) : ResourceAttributes :=
  let serviceName :=
    if truthy (Some otelServiceName) then otelServiceName else wr_name payload in
  let serviceInstanceId :=
    String.concat "/"
      [ repository_full_name (wr_repository payload);
        rt_number_toString rt (wr_workflow_id payload);
        rt_number_toString rt (wr_id payload);
        rt_number_toString rt (wr_run_attempt payload) ] in
  let serviceNamespace := repository_full_name (wr_repository payload) in
  let serviceVersion := wr_head_sha payload in
  {| service_name := serviceName;
     service_instance_id := serviceInstanceId;
     service_namespace := serviceNamespace;
     service_version := serviceVersion |}.

(** The [Authorization] header of the exporter. *)
Definition authorization_header (grafanaInstanceID grafanaAccessToken : string)
    : string :=
  let credentials := grafanaInstanceID +:+ ":" +:+ grafanaAccessToken in
  let encodedCredentials := rt_base64 rt credentials in
  "Basic " +:+ encodedCredentials.

Definition createProvider (otelServiceName : string) (payload : WorkflowRun)
    (grafanaEndpoint grafanaInstanceID grafanaAccessToken : string)
    : RunEff unit :=
  let resource := resource_attributes otelServiceName payload in
  (run_invoke (NewResource resource) ;;
   run_invoke (NewBasicTracerProvider resource) ;;
   run_invoke NewDiagConsoleLogger ;;
   run_invoke DiagSetLogger ;;
   let authHeader :=
     authorization_header grafanaInstanceID grafanaAccessToken in
   run_invoke (NewOTLPTraceExporter grafanaEndpoint authHeader) ;;
   run_invoke NewSimpleSpanProcessor ;;
   run_invoke AddSpanProcessor ;;
   run_invoke ProviderRegister)%run.

Definition fetchWorkflowJobs (owner repo : string) (runId : Z)
    : RunEff JobsData :=
  (run_invoke (ListJobsForWorkflowRun owner repo runId) ;;
   let response := rt_listJobs rt owner repo runId in
   core_debug ("response: " +:+ rt_JSON_stringify rt response) ;;
   run_ret (response_data response))%run.

(** The object literal [rootAttributes] of [run]. *)
Definition root_attributes (workflowJobsDetails : JobsData)
    (payload : WorkflowRun) : RawAttributes :=
  <["jobs.total_count" := Some (ANumber (total_count workflowJobsDetails))]>
  (<["workflow_run.id" := Some (ANumber (wr_id payload))]>
  (<["workflow_run.name" := Some (AString (wr_name payload))]>
  (<["workflow_run.head_sha" := Some (AString (wr_head_sha payload))]>
  (<["workflow_run.repository" :=
       Some (AString (repository_full_name (wr_repository payload)))]>
  (<["workflow_run.workflow_id" := Some (ANumber (wr_workflow_id payload))]>
  (<["workflow_run.run_number" := Some (ANumber (wr_run_number payload))]>
  (<["workflow_run.run_attempt" := Some (ANumber (wr_run_attempt payload))]>
  (<["workflow_run.event" := Some (AString (wr_event payload))]>
  (<["workflow_run.status" := Some (AString (wr_status payload))]>
  (<["workflow_run.conclusion" := Some (AString (wr_conclusion payload))]>
  (<["workflow_run.created_at" := Some (AString (wr_created_at payload))]>
  (<["workflow_run.updated_at" := Some (AString (wr_updated_at payload))]>
  (<["workflow_run.url" := Some (AString (wr_url payload))]>
  (<["workflow_run.html_url" := Some (AString (wr_html_url payload))]>
  (<["workflow_run.jobs_url" := Some (AString (wr_jobs_url payload))]>
  (<["workflow_run.logs_url" := Some (AString (wr_logs_url payload))]>
  (<["workflow_run.check_suite_url" :=
       Some (AString (wr_check_suite_url payload))]>
  (<["workflow_run.artifacts_url" :=
       Some (AString (wr_artifacts_url payload))]>
  (<["workflow_run.cancel_url" := Some (AString (wr_cancel_url payload))]>
  (<["workflow_run.rerun_url" := Some (AString (wr_rerun_url payload))]>
  (<["workflow_run.workflow_url" := Some (AString (wr_workflow_url payload))]>
  (<["workflow_run.head_branch" := Some (AString (wr_head_branch payload))]>
  (<["workflow_run.head_repository" :=
       Some (AString (repository_full_name (wr_head_repository payload)))]>
  (<["workflow_run.head_repository_url" :=
       Some (AString (repository_html_url (wr_head_repository payload)))]>
   ∅)))))))))))))))))))))))).

(** [core.getInput('githubToken') || process.env.GITHUB_TOKEN || '']. *)
Definition github_token (inputs : ActionInputs) (GITHUB_TOKEN : option string)
    : string :=
  if truthy (Some (in_githubToken inputs)) then in_githubToken inputs
  else if truthy GITHUB_TOKEN then default "" GITHUB_TOKEN
  else "".

(** [payload.workflow_run.run_started_at || payload.workflow_run.created_at]. *)
Definition run_start_time (payload : WorkflowRun) : string :=
  if truthy (wr_run_started_at payload)
  then default "" (wr_run_started_at payload)
  else wr_created_at payload.

(** The [try] block of [run]. *)
Definition run_try_block (inputs : ActionInputs) (GITHUB_TOKEN : option string)
    (githubContext : GithubContext) : RunEff unit :=
  let grafanaEndpoint := in_grafanaEndpoint inputs in
  let grafanaInstanceID := in_grafanaInstanceID inputs in
  let grafanaAccessToken := in_grafanaAccessPolicyToken inputs in
  let otelServiceName := in_otelServiceName inputs in
  let githubToken := github_token inputs GITHUB_TOKEN in
  (core_debug "checking workflow type" ;;
   if negb (ctx_eventName githubContext =? "workflow_run") then
     run_setFailed "This action only works with workflow_run events"
   else
     let payload := ctx_workflow_run githubContext in
     let runId := wr_id payload in
     run_invoke (GetOctokit githubToken) ;;
     core_debug "creating provider" ;;
     createProvider otelServiceName payload grafanaEndpoint grafanaInstanceID
       grafanaAccessToken ;;
     core_debug "fetching workflow jobs" ;;
     workflowJobsDetails <-
       fetchWorkflowJobs (ctx_owner githubContext) (ctx_repo githubContext)
         runId ;;
     run_invoke (GetTracer "grafana-exporter") ;;
     let tracer := rt_getTracer rt "grafana-exporter" in
     let rootAttributes := root_attributes workflowJobsDetails payload in
     let startTime := run_start_time payload in
     span_builders
       (createSpansForJobsAndSteps startTime (data_jobs workflowJobsDetails)
          tracer rootAttributes))%run.

(** [run]: the [try] block, and [if (error instanceof Error)
    core.setFailed(error.message)] for what it throws. *)
Definition run (inputs : ActionInputs) (GITHUB_TOKEN : option string)
    (githubContext : GithubContext) : RunEff unit :=
  run_try_catch (run_try_block inputs GITHUB_TOKEN githubContext)
    (fun error =>
       if rt_instanceof_Error rt error
       then run_setFailed (error_message error)
       else run_ret tt).

(** The calls that [run] makes on a [workflow_run] event when none of them
    throws, in order. *)
Definition run_plan (inputs : ActionInputs) (GITHUB_TOKEN : option string)
    (githubContext : GithubContext) : list run_call :=
  let payload := ctx_workflow_run githubContext in
  let resource := resource_attributes (in_otelServiceName inputs) payload in
  let response :=
    rt_listJobs rt (ctx_owner githubContext) (ctx_repo githubContext)
      (wr_id payload) in
  [ CoreDebug "checking workflow type";
    GetOctokit (github_token inputs GITHUB_TOKEN);
    CoreDebug "creating provider";
    NewResource resource;
    NewBasicTracerProvider resource;
    NewDiagConsoleLogger;
    DiagSetLogger;
    NewOTLPTraceExporter (in_grafanaEndpoint inputs)
      (authorization_header (in_grafanaInstanceID inputs)
         (in_grafanaAccessPolicyToken inputs));
    NewSimpleSpanProcessor;
    AddSpanProcessor;
    ProviderRegister;
    CoreDebug "fetching workflow jobs";
    ListJobsForWorkflowRun (ctx_owner githubContext) (ctx_repo githubContext)
      (wr_id payload);
    CoreDebug ("response: " +:+ rt_JSON_stringify rt response);
    GetTracer "grafana-exporter";
    SpanBuilders
      (snd (createSpansForJobsAndSteps (run_start_time payload)
              (data_jobs (response_data response))
              (rt_getTracer rt "grafana-exporter")
              (root_attributes (response_data response) payload) [])) ].

(** What a call of the plan does when it is made after [rlog]: the loggers
    return, the span builders end as [createSpansForJobsAndSteps] ends, and
    any other call returns or throws as the run time decides. *)
Definition plan_call_outcome (githubContext : GithubContext)
    (rlog : list run_call) (c : run_call) : Outcome unit :=
  match c with
  | CoreDebug _ | RunSetFailed _ => Returned tt
  | SpanBuilders _ =>
      let payload := ctx_workflow_run githubContext in
      let data :=
        response_data
          (rt_listJobs rt (ctx_owner githubContext) (ctx_repo githubContext)
             (wr_id payload)) in
      fst (createSpansForJobsAndSteps (run_start_time payload) (data_jobs data)
             (rt_getTracer rt "grafana-exporter")
             (root_attributes data payload) [])
  | _ =>
      match rt_throws rt rlog c with
      | Some e => Thrown e
      | None => Returned tt
      end
  end.

(** Making the calls of a list one after the other, up to the first one
    that throws. *)
Fixpoint follow_plan (outcome : list run_call -> run_call -> Outcome unit)
    (plan : list run_call) (rlog : list run_call)
    : Outcome unit * list run_call :=
  match plan with
  | [] => (Returned tt, rlog)
  | c :: rest =>
      match outcome rlog c with
      | Returned _ => follow_plan outcome rest (rlog ++ [c])
      | Thrown e => (Thrown e, rlog ++ [c])
      end
  end.

(** ** Properties of the sanitizer *)

(** What [acc[key] = value] leaves at the key [k]. *)
Lemma lookup_set_property (acc : Attributes) (key : string)
    (value : AttributeValue) (k : string) :
  set_property acc key value !! k
  = if decide (key = k ∧ k ≠ "__proto__") then Some value else acc !! k.
Proof.
  unfold set_property.
  destruct (String.eqb_spec key "__proto__") as [Hkey|Hkey].
  - destruct (decide (key = k ∧ k ≠ "__proto__")) as [[Hk Hne]|_]; [|done].
    congruence.
  - destruct (decide (key = k ∧ k ≠ "__proto__")) as [[Hk _]|Hno].
    + subst k. by rewrite lookup_insert_eq.
    + rewrite lookup_insert_ne; [done|]. intros Hk. subst k. by apply Hno.
Qed.

(** One pass of the sanitizer's reduction over entries with distinct keys:
    an entry with a value wins unless its key is [__proto__], any other key
    keeps what [acc] has. *)
Lemma sanitize_fold_lookup (l : list (string * option AttributeValue))
    (acc : Attributes) (k : string) :
  NoDup l.*1 →
  fold_left
    (fun (acc : Attributes) '(key, value) =>
       match value with
       | Some v => set_property acc key v
       | None => acc
       end) l acc !! k
  = match (list_to_map l : RawAttributes) !! k with
    | Some (Some v) => if decide (k = "__proto__") then acc !! k else Some v
    | _ => acc !! k
    end.
Proof.
  revert acc.
  induction l as [|[k0 v0] l IH]; intros acc Hnd; simpl.
  - by rewrite lookup_empty.
  - apply NoDup_cons in Hnd as [Hk0 Hnd].
    rewrite (IH _ Hnd).
    destruct (decide (k0 = k)) as [->|Hne].
    + rewrite lookup_insert_eq.
      rewrite (not_elem_of_list_to_map_1 (M:=gmap string) l k Hk0).
      destruct v0 as [v|]; [|done].
      rewrite lookup_set_property.
      destruct (decide (k = "__proto__")) as [->|Hk].
      * destruct (decide ("__proto__" = "__proto__" ∧ "__proto__" ≠ "__proto__"))
          as [[_ Habs]|_]; done.
      * destruct (decide (k = k ∧ k ≠ "__proto__")) as [_|Habs]; [done|].
        by destruct Habs.
    + rewrite (lookup_insert_ne _ k0 k) by done.
      assert (match v0 with
              | Some v => set_property acc k0 v
              | None => acc
              end !! k = acc !! k) as ->; [|done].
      destruct v0 as [v|]; [|done].
      rewrite lookup_set_property.
      destruct (decide (k0 = k ∧ k ≠ "__proto__")) as [[Habs _]|_]; done.
Qed.

(** The sanitizer, key by key: a key holds in the result the value it holds
    in the argument, unless it is unset there or is [__proto__]. *)
Lemma removeUndefinedProperties_lookup (obj : RawAttributes) (k : string) :
  removeUndefinedProperties obj !! k
  = match obj !! k with
    | Some (Some v) => if decide (k = "__proto__") then None else Some v
    | _ => None
    end.
Proof.
  unfold removeUndefinedProperties.
  rewrite sanitize_fold_lookup by apply NoDup_fst_map_to_list.
  rewrite list_to_map_to_list, lookup_empty.
  by destruct (obj !! k) as [[v|]|].
Qed.

(** C9, where the code departs from it.  A table with the own key
    [__proto__] set to a string comes back from the sanitizer without that
    entry, although its value is not unset: the assignment [acc[key] = value]
    on the accumulator [{}] goes to the setter of [Object.prototype] and adds
    no property.  The other entry is kept. *)
Theorem removeUndefinedProperties_drops_proto_key :
  removeUndefinedProperties
    (<["__proto__" := Some (AString "x")]> (<["a" := Some (ANumber 1)]> ∅))
  = <["a" := ANumber 1]> ∅.
Proof.
  apply map_eq; intros k.
  rewrite removeUndefinedProperties_lookup.
  destruct (decide (k = "__proto__")) as [->|Hproto].
  - by rewrite lookup_insert_eq, lookup_insert_ne.
  - rewrite lookup_insert_ne by done.
    destruct (decide (k = "a")) as [->|Ha].
    + by rewrite !lookup_insert_eq.
    + by rewrite !lookup_insert_ne, !lookup_empty.
Qed.

(** The table of the unit test: [property2] is unset and is dropped. *)
Example removeUndefinedProperties_test :
  removeUndefinedProperties
    (<["property1" := Some (AString "value1")]>
     (<["property2" := None]>
      (<["property3" := Some (AString "value3")]> ∅)))
  = <["property1" := AString "value1"]>
    (<["property3" := AString "value3"]> ∅).
Proof. vm_compute. reflexivity. Qed.

(** ** How the computations run *)

Lemma invoke_run (c : call) (log : list call) :
  invoke c log = (call_outcome log c, log ++ [c]).
Proof. unfold invoke, call_outcome. by destruct (throws log c). Qed.

Lemma setSpanStatus_run (span : Span) (success : bool) (log : list call) :
  setSpanStatus span success log
  = (call_outcome log (SpanSetStatus span (status_of success)),
     log ++ [SpanSetStatus span (status_of success)]).
Proof.
  unfold setSpanStatus, span_setStatus, status_of.
  destruct success; apply invoke_run.
Qed.

(** [try { body } catch { core.setFailed(msg) } finally { span.end(t) }]:
    the failure message is logged iff the body threw, the span is ended
    after that, and the outcome is that of [span.end]. *)
Lemma try_setFailed_finally_end (body : Eff unit) (msg : string)
    (span : Span) (t : option Date) (log : list call) :
  let log2 := match fst (body log) with
              | Returned _ => snd (body log)
              | Thrown _ => snd (body log) ++ [CoreSetFailed msg]
              end in
  try_catch_finally body (fun _ => core_setFailed msg) (span_end span t) log
  = (call_outcome log2 (SpanEnd span t), log2 ++ [SpanEnd span t]).
Proof.
  unfold try_catch_finally, span_end, core_setFailed. simpl.
  destruct (body log) as [[[]|e] log1]; simpl; rewrite invoke_run;
    unfold call_outcome; by destruct (throws _ _).
Qed.

Lemma grows_ret {A} (a : A) : grows (ret a).
Proof. intros log. exists []. by rewrite app_nil_r. Qed.

Lemma grows_invoke (c : call) : grows (invoke c).
Proof. intros log. exists [c]. by rewrite invoke_run. Qed.

Lemma grows_bind {A B} (m : Eff A) (k : A -> Eff B) :
  grows m → (∀ a, grows (k a)) → grows (bind m k).
Proof.
  intros Hm Hk log. unfold bind.
  destruct (Hm log) as [n1 H1].
  destruct (m log) as [[a|e] log1]; simpl in H1; subst log1.
  - destruct (Hk a (log ++ n1)) as [n2 H2].
    exists (n1 ++ n2). by rewrite H2, app_assoc.
  - by exists n1.
Qed.

Lemma grows_startActiveSpan {A} (tracer : Tracer) (name : string)
    (options : SpanOptions) (ctx : Context) (fn : Span -> Context -> Eff A) :
  (∀ span active, grows (fn span active)) →
  grows (startActiveSpan tracer name options ctx fn).
Proof.
  intros Hfn log. unfold startActiveSpan.
  destruct (throws log _).
  - by eexists.
  - destruct (Hfn (tracer_span tracer log name options ctx)
                  (tracer_active tracer ctx (tracer_span tracer log name options ctx))
                  (log ++ [TracerStartActiveSpan name options ctx]))
      as [n Hn].
    exists (TracerStartActiveSpan name options ctx :: n).
    by rewrite Hn, <- app_assoc.
Qed.

Lemma grows_for_of {A} (l : list A) (body : A -> Eff unit) :
  (∀ x, grows (body x)) → grows (for_of l body).
Proof.
  intros Hb. induction l as [|x l IH]; simpl.
  - apply grows_ret.
  - apply grows_bind; [apply Hb | intros _; apply IH].
Qed.

Lemma grows_setSpanStatus (span : Span) (success : bool) :
  grows (setSpanStatus span success).
Proof. intros log. rewrite setSpanStatus_run. by eexists. Qed.

Lemma grows_processSteps (steps : list WorkflowStep) (tracer : Tracer)
    (jobCtx : Context) :
  grows (processSteps steps tracer jobCtx).
Proof.
  apply grows_for_of; intros step.
  apply grows_startActiveSpan; intros span _.
  apply grows_bind; [apply grows_invoke | intros _].
  apply grows_bind; [apply grows_setSpanStatus | intros _].
  apply grows_invoke.
Qed.

(** ** Step spans *)



(** ** Job spans *)

(** [processJob] once its span is open: the status is set first; the steps
    run only if that call returned; the failure message is logged iff the
    [try] block threw; the span is ended last and decides the outcome. *)
Lemma processJob_run (job : Job) (tracer : Tracer) (parentCtx : Context)
    (log : list call) :
  throws log (job_start_call job parentCtx) = None →
  let span := job_span tracer log job parentCtx in
  let body :=
    (setSpanStatus span (strict_eq (job_conclusion job) "success") ;;
     match job_steps job with
     | Some steps => processSteps steps tracer (steps_context tracer parentCtx span)
     | None => ret tt
     end)%eff in
  let log1 := log ++ [job_start_call job parentCtx] in
  let log2 := match fst (body log1) with
              | Returned _ => snd (body log1)
              | Thrown _ =>
                  snd (body log1)
                  ++ [CoreSetFailed ("Failed to process job " +:+ job_name job)]
              end in
  let closing := SpanEnd span (date_or_undefined (job_completed_at job)) in
  processJob job tracer parentCtx log
  = (call_outcome log2 closing, log2 ++ [closing]).
Proof.
  intros Hstart. simpl.
  unfold processJob, startActiveSpan.
  unfold job_start_call in Hstart. rewrite Hstart.
  apply try_setFailed_finally_end.
Qed.

(** The [try] block of [processJob] begins with the status call. *)
Lemma job_body_sets_status (job : Job) (tracer : Tracer) (ctx : Context)
    (span : Span) (log : list call) :
  ∃ rest,
    snd ((setSpanStatus span (strict_eq (job_conclusion job) "success") ;;
          match job_steps job with
          | Some steps => processSteps steps tracer ctx
          | None => ret tt
          end)%eff log)
    = log ++ SpanSetStatus span
               (status_of (strict_eq (job_conclusion job) "success")) :: rest.
Proof.
  unfold bind. rewrite setSpanStatus_run.
  destruct (call_outcome _ _) as [[]|e]; simpl.
  - destruct (job_steps job) as [steps|].
    + destruct (grows_processSteps steps tracer ctx
                  (log ++ [SpanSetStatus span
                     (status_of (strict_eq (job_conclusion job) "success"))]))
        as [new Hnew].
      exists new. by rewrite Hnew, <- app_assoc.
    + by exists [].
  - by exists [].
Qed.

(** Once its span is open, [processJob] opens with the start and status
    calls and closes with [span.end] on the same span. *)
Lemma processJob_opens_and_closes (job : Job) (tracer : Tracer)
    (parentCtx : Context) (log : list call) :
  throws log (job_start_call job parentCtx) = None →
  let span := job_span tracer log job parentCtx in
  ∃ middle,
    snd (processJob job tracer parentCtx log)
    = log ++ job_start_call job parentCtx
          :: SpanSetStatus span
               (status_of (strict_eq (job_conclusion job) "success"))
          :: middle
          ++ [SpanEnd span (date_or_undefined (job_completed_at job))].
Proof.
  intros Hstart span.
  rewrite (processJob_run job tracer parentCtx log Hstart). simpl.
  destruct (job_body_sets_status job tracer (steps_context tracer parentCtx span)
              span (log ++ [job_start_call job parentCtx])) as [rest Hrest].
  fold span. destruct (fst _).
  - exists rest. rewrite Hrest. by rewrite <- !app_assoc.
  - exists (rest ++ [CoreSetFailed ("Failed to process job " +:+ job_name job)]).
    rewrite Hrest. by rewrite <- !app_assoc.
Qed.

Lemma status_of_code (success : bool) :
  (status_code (status_of success) = OK ↔ success = true)
  ∧ (status_code (status_of success) = ERROR ↔ success = false).
Proof. destruct success; simpl; split; split; congruence. Qed.

Lemma strict_eq_true (v : option string) (lit : string) :
  strict_eq v lit = true ↔ v = Some lit.
Proof.
  destruct v as [s|]; simpl; [|split; congruence].
  rewrite String.eqb_eq. split; congruence.
Qed.

Lemma strict_eq_false (v : option string) (lit : string) :
  strict_eq v lit = false ↔ v ≠ Some lit.
Proof.
  rewrite <- strict_eq_true. destruct (strict_eq v lit); split; congruence.
Qed.

(** ** The fan-out over the jobs *)

(** The unit of work of a job catches whatever the job processor throws. *)
Lemma job_unit_returns (tracer : Tracer) (span : Span)
    (processJobFn : Job -> Tracer -> Context -> Eff unit) (job : Job)
    (log : list call) :
  fst (job_unit tracer span processJobFn job log) = Returned tt.
Proof.
  unfold job_unit, try_catch, console_error.
  by destruct (processJobFn job tracer _ log) as [[[]|e] log1].
Qed.

Lemma job_units_settle (tracer : Tracer) (span : Span)
    (processJobFn : Job -> Tracer -> Context -> Eff unit) (jobs : list Job) :
  first_thrown
    (map fst (map (fun unit_of_work : Eff unit => unit_of_work [])
                (map (job_unit tracer span processJobFn) jobs)))
  = Returned tt.
Proof.
  induction jobs as [|job jobs IH]; simpl; [done|].
  by rewrite job_unit_returns.
Qed.

(** [handleJobsAndSteps] sets the status, then the attributes, then runs
    one unit per job; it throws only if one of the two calls on the root
    span throws. *)
Lemma handleJobsAndSteps_run (tracer : Tracer) (span : Span)
    (jobs : list Job) (rootAttributes : RawAttributes)
    (processJobFn : Job -> Tracer -> Context -> Eff unit) (log : list call) :
  let set_status := SpanSetStatus span (root_status jobs) in
  let set_attrs :=
    SpanSetAttributes span (removeUndefinedProperties rootAttributes) in
  handleJobsAndSteps tracer span jobs rootAttributes processJobFn log
  = match throws log set_status with
    | Some e => (Thrown e, log ++ [set_status])
    | None =>
        match throws (log ++ [set_status]) set_attrs with
        | Some e => (Thrown e, log ++ [set_status; set_attrs])
        | None =>
            (Returned tt,
             log ++ [set_status; set_attrs;
                     Forked (map (fun job =>
                                    snd (job_unit tracer span processJobFn job []))
                               jobs)])
        end
    end.
Proof.
  simpl. unfold handleJobsAndSteps, bind, span_setStatus, span_setAttributes.
  rewrite invoke_run. unfold call_outcome, root_status.
  destruct (throws log _); [done|].
  rewrite invoke_run. unfold call_outcome.
  destruct (throws (log ++ _) _); [by rewrite <- app_assoc|].
  unfold Promise_all. rewrite job_units_settle.
  by rewrite !map_map, <- !app_assoc.
Qed.

(** The calls of [handleJobsAndSteps] on the root span: the status call,
    then neither a second status call nor an end call. *)
Lemma handleJobsAndSteps_calls (tracer : Tracer) (span : Span)
    (jobs : list Job) (rootAttributes : RawAttributes)
    (processJobFn : Job -> Tracer -> Context -> Eff unit) (log : list call) :
  ∃ rest,
    snd (handleJobsAndSteps tracer span jobs rootAttributes processJobFn log)
    = log ++ SpanSetStatus span (root_status jobs) :: rest
    ∧ Forall (fun c => is_SpanSetStatus c = false ∧ is_SpanEnd c = false) rest.
Proof.
  rewrite handleJobsAndSteps_run.
  destruct (throws log _).
  - exists []. by split.
  - destruct (throws (log ++ _) _).
    + eexists [_]. split; [done|]. by repeat constructor.
    + eexists [_; _]. split; [done|]. by repeat constructor.
Qed.

Lemma anyJobError_true (jobs : list Job) :
  anyJobError jobs = true
  ↔ ∃ job, job ∈ jobs ∧ job_conclusion job ≠ Some "success".
Proof.
  unfold anyJobError. rewrite existsb_exists. split.
  - intros (job & Hin & Hne). exists job.
    split; [by apply list_elem_of_In|].
    apply strict_eq_false. by destruct (strict_eq _ _).
  - intros (job & Hin & Hne). exists job.
    split; [by apply list_elem_of_In|].
    apply strict_eq_false in Hne. by rewrite Hne.
Qed.

(** ** The root span *)

(** The reduction keeps one of the jobs it was given... *)
Lemma later_fold_member (first : Job) (rest : list Job) :
  fold_left later_job rest first ∈ first :: rest.
Proof.
  revert first. induction rest as [|job rest IH]; intros first; simpl.
  - apply list_elem_of_here.
  - unfold later_job at 2.
    destruct (completed_ms first >? completed_ms job)%Z.
    + specialize (IH first). apply elem_of_cons in IH as [->|Hin].
      * apply list_elem_of_here.
      * by do 2 apply list_elem_of_further.
    + apply list_elem_of_further, IH.
Qed.

(** ...and its time only goes up along the array... *)
Lemma later_fold_above_seed (first : Job) (rest : list Job) :
  (completed_ms first ≤ completed_ms (fold_left later_job rest first))%Z.
Proof.
  revert first. induction rest as [|job rest IH]; intros first; simpl; [lia|].
  unfold later_job at 2.
  destruct (Z.gtb_spec (completed_ms first) (completed_ms job)).
  - apply IH.
  - specialize (IH job). lia.
Qed.

(** ...so that no job it was given is later than the one it keeps. *)
Lemma later_fold_upper_bound (first : Job) (rest : list Job) (job : Job) :
  job ∈ first :: rest →
  (completed_ms job ≤ completed_ms (fold_left later_job rest first))%Z.
Proof.
  revert first. induction rest as [|next rest IH]; intros first Hin.
  - apply elem_of_cons in Hin as [->|Hin]; [simpl; lia|].
    by apply elem_of_nil in Hin.
  - simpl. unfold later_job at 2.
    apply elem_of_cons in Hin as [->|Hin].
    + destruct (Z.gtb_spec (completed_ms first) (completed_ms next)).
      * apply later_fold_above_seed.
      * pose proof (later_fold_above_seed next rest). lia.
    + destruct (Z.gtb_spec (completed_ms first) (completed_ms next)).
      * apply elem_of_cons in Hin as [->|Hin].
        -- pose proof (later_fold_above_seed first rest). lia.
        -- apply IH. by apply list_elem_of_further.
      * by apply IH.
Qed.

Lemma elem_of_completedJobs (jobs : list Job) (job : Job) :
  job ∈ completedJobs jobs ↔ job ∈ jobs ∧ job_status job = "completed".
Proof. unfold completedJobs. rewrite list_elem_of_filter. tauto. Qed.

(** The job that the [finally] block selects is a completed job of the
    list, and no completed job of the list compares later. *)
Lemma lastCompletedJob_latest (jobs : list Job) (last : Job) :
  lastCompletedJob jobs = Returned last →
  last ∈ jobs ∧ job_status last = "completed"
  ∧ ∀ job, job ∈ jobs → job_status job = "completed" →
           (completed_ms job ≤ completed_ms last)%Z.
Proof.
  unfold lastCompletedJob, reduce.
  destruct (completedJobs jobs) as [|first rest] eqn:Hc; [done|].
  intros [= <-].
  pose proof (later_fold_member first rest) as Hin.
  rewrite <- Hc in Hin. apply elem_of_completedJobs in Hin as [Hin Hst].
  split; [done|]. split; [done|].
  intros job Hjob Hjst. apply later_fold_upper_bound.
  rewrite <- Hc. by apply elem_of_completedJobs.
Qed.

(** With a completed job in the list the selection returns. *)
Lemma lastCompletedJob_returns (jobs : list Job) :
  (∃ job, job ∈ jobs ∧ job_status job = "completed") →
  ∃ last, lastCompletedJob jobs = Returned last.
Proof.
  intros (job & Hin & Hst).
  unfold lastCompletedJob, reduce.
  destruct (completedJobs jobs) as [|first rest] eqn:Hc; [|by eexists].
  assert (job ∈ completedJobs jobs) as Habs by by apply elem_of_completedJobs.
  rewrite Hc in Habs. by apply elem_of_nil in Habs.
Qed.


(** [createSpansForJobsAndSteps] once the root span is open: whatever
    [handleJobsAndSteps] did, the [finally] block selects the last completed
    job; if the selection throws nothing more happens, otherwise the span is
    ended with the time of that job. *)
Lemma createSpansForJobsAndSteps_run (startTime : string) (jobs : list Job)
    (tracer : Tracer) (rootAttributes : RawAttributes) (log : list call) :
  throws log (root_start_call startTime) = None →
  let span := root_span tracer log startTime in
  let log2 := log_before_finally startTime jobs tracer rootAttributes log in
  createSpansForJobsAndSteps startTime jobs tracer rootAttributes log
  = match lastCompletedJob jobs with
    | Returned last =>
        let closing :=
          SpanEnd span (date_or_undefined (job_completed_at last)) in
        (call_outcome (log2 ++ [DiagDebug (completed_at_message last)]) closing,
         log2 ++ [DiagDebug (completed_at_message last); closing])
    | Thrown e => (Thrown e, log2)
    end.
Proof.
  intros Hstart. simpl.
  unfold createSpansForJobsAndSteps, startActiveSpan.
  unfold root_start_call in Hstart. rewrite Hstart. clear Hstart.
  unfold try_catch_finally, log_before_finally, root_span, root_start_call.
  destruct (handleJobsAndSteps _ _ _ _ _ _) as [[[]|e] log1]; simpl.
  all: unfold end_root_span, bind, lift, diag_debug, span_end.
  all: destruct (lastCompletedJob jobs) as [last|e']; [|done].
  all: rewrite invoke_run; unfold call_outcome, completed_at_message.
  all: destruct (throws _ _); by rewrite <- !app_assoc.
Qed.

(** Before the [finally] block the root span has been given its status and
    has not been ended. *)
Lemma log_before_finally_calls (startTime : string) (jobs : list Job)
    (tracer : Tracer) (rootAttributes : RawAttributes) (log : list call) :
  ∃ rest,
    log_before_finally startTime jobs tracer rootAttributes log
    = log ++ root_start_call startTime
          :: SpanSetStatus (root_span tracer log startTime) (root_status jobs)
          :: rest
    ∧ Forall (fun c => is_SpanSetStatus c = false ∧ is_SpanEnd c = false) rest.
Proof.
  unfold log_before_finally.
  destruct (handleJobsAndSteps_calls tracer (root_span tracer log startTime)
              jobs rootAttributes processJob
              (log ++ [root_start_call startTime])) as (rest & Hrest & Hno).
  destruct (fst _).
  - exists rest. by rewrite Hrest, <- app_assoc.
  - eexists (rest ++ [_]). rewrite Hrest, <- !app_assoc. split; [done|].
    apply Forall_app. split; [done|]. by repeat constructor.
Qed.

(** How a job compares in the reduction, from its completion time. *)
Lemma completed_ms_of_time (job : Job) :
  completed_ms job = default 0 (completion_time job).
Proof.
  unfold completed_ms, completion_time.
  destruct (job_completed_at job) as [s|]; [|done].
  destruct (truthy (Some s)); [|done].
  destruct (Date_parse s) as [ms|]; [|done]. simpl.
  destruct (Z.eqb_spec ms 0); congruence.
Qed.

(** A job with a completion time ends its span at that time. *)
Lemma date_of_completion_time (job : Job) (t : Z) :
  completion_time job = Some t →
  date_or_undefined (job_completed_at job) = Some (Some t).
Proof.
  unfold completion_time, date_or_undefined, new_Date.
  destruct (job_completed_at job) as [s|]; [|done].
  destruct (truthy (Some s)); [|done]. by intros ->.
Qed.




Lemma date_or_undefined_cases (v : option string) :
  (∀ s, v = Some s → s ≠ "" → date_or_undefined v = Some (Date_parse s))
  ∧ (v = None ∨ v = Some "" → date_or_undefined v = None).
Proof.
  unfold date_or_undefined, new_Date, truthy. split.
  - intros s -> Hne. apply String.eqb_neq in Hne. by rewrite Hne.
  - by intros [->| ->].
Qed.

(** The log of a job's unit of work is the log of the job processor,
    followed by the console message if the processor threw. *)
Lemma job_unit_log (tracer : Tracer) (span : Span) (job : Job)
    (log : list call) :
  ∃ tail,
    snd (job_unit tracer span processJob job log)
    = snd (processJob job tracer (trace_setSpan ROOT_CONTEXT span) log) ++ tail
    ∧ (tail = [] ∨ ∃ msg, tail = [ConsoleError msg]).
Proof.
  unfold job_unit, try_catch, console_error.
  destruct (processJob job tracer _ log) as [[[]|e] log1]; simpl.
  - exists []. split; [by rewrite app_nil_r | by left].
  - eexists [_]. split; [done | right; by eexists].
Qed.



(** Over the whole of [createSpansForJobsAndSteps] the status of the root
    span is set once, right after the span is opened. *)
Lemma root_status_set_once (startTime : string) (jobs : list Job)
    (tracer : Tracer) (rootAttributes : RawAttributes) (log : list call) :
  throws log (root_start_call startTime) = None →
  ∃ rest,
    snd (createSpansForJobsAndSteps startTime jobs tracer rootAttributes log)
    = log ++ root_start_call startTime
          :: SpanSetStatus (root_span tracer log startTime) (root_status jobs)
          :: rest
    ∧ Forall (fun c => is_SpanSetStatus c = false) rest.
Proof.
  intros Hstart.
  destruct (log_before_finally_calls startTime jobs tracer rootAttributes log)
    as (rest & Hlog2 & Hrest).
  assert (Forall (fun c => is_SpanSetStatus c = false) rest) as Hrest'
    by (eapply Forall_impl; [exact Hrest|]; by intros c [H1 _]).
  rewrite (createSpansForJobsAndSteps_run startTime jobs tracer
             rootAttributes log Hstart).
  destruct (lastCompletedJob jobs) as [last|e]; simpl; rewrite Hlog2.
  - eexists (rest ++ [_; _]). split; [by rewrite <- !app_assoc|].
    apply Forall_app. split; [done|]. by repeat constructor.
  - by exists rest.
Qed.

(** One iteration of the loop of [processSteps] sets a status on the span
    of its step only, the span the tracer has just handed out. *)
Lemma step_iteration_status_span (step : WorkflowStep) (tracer : Tracer)
    (jobCtx : Context) (log : list call) :
  ∃ new,
    snd (startActiveSpan tracer (step_name step) (step_span_options step)
           jobCtx
           (fun span _ =>
              span_setAttributes span
                (removeUndefinedProperties (step_raw_attributes step)) ;;
              setSpanStatus span (strict_eq (step_conclusion step) "success") ;;
              span_end span (date_or_undefined (step_completed_at step)))%eff
           log)
    = log ++ new
    ∧ Forall (on_later_span tracer log) new.
Proof.
  assert (on_later_span tracer log
            (SpanSetStatus
               (tracer_span tracer log (step_name step)
                  (step_span_options step) jobCtx)
               (status_of (strict_eq (step_conclusion step) "success"))))
    as Hstatus.
  { intros sp st [= <- _]. exists []. rewrite app_nil_r. by eexists _, _, _. }
  unfold startActiveSpan, bind, span_setAttributes, span_end.
  destruct (throws log _) as [e|].
  { eexists [_]. split; [done|]. by repeat constructor. }
  rewrite invoke_run.
  destruct (call_outcome _ _) as [[]|e].
  2: { eexists [_; _]. rewrite <- !app_assoc. split; [done|].
       by repeat constructor. }
  rewrite setSpanStatus_run.
  destruct (call_outcome _ _) as [[]|e].
  2: { eexists [_; _; _]. rewrite <- !app_assoc. split; [done|].
       by repeat constructor. }
  rewrite invoke_run. simpl.
  eexists [_; _; _; _]. rewrite <- !app_assoc. split; [done|].
  by repeat constructor.
Qed.

(** So does [processSteps]: every status it sets is set on a span handed
    out during its own run. *)
Lemma processSteps_status_spans (steps : list WorkflowStep) (tracer : Tracer)
    (jobCtx : Context) (log : list call) :
  ∃ new,
    snd (processSteps steps tracer jobCtx log) = log ++ new
    ∧ Forall (on_later_span tracer log) new.
Proof.
  revert log. induction steps as [|step steps IH]; intros log.
  - exists []. split; [by rewrite app_nil_r | constructor].
  - assert (processSteps (step :: steps) tracer jobCtx log
            = match
                startActiveSpan tracer (step_name step) (step_span_options step)
                  jobCtx
                  (fun span _ =>
                     span_setAttributes span
                       (removeUndefinedProperties (step_raw_attributes step)) ;;
                     setSpanStatus span
                       (strict_eq (step_conclusion step) "success") ;;
                     span_end span
                       (date_or_undefined (step_completed_at step)))%eff log
              with
              | (Returned _, log1) => processSteps steps tracer jobCtx log1
              | (Thrown e, log1) => (Thrown e, log1)
              end) as Hunfold by reflexivity.
    rewrite Hunfold. clear Hunfold.
    destruct (step_iteration_status_span step tracer jobCtx log)
      as (new1 & Hnew1 & Hon1).
    destruct (startActiveSpan _ _ _ _ _ log) as [[[]|e] log1];
      simpl in Hnew1; subst log1.
    + destruct (IH (log ++ new1)) as (new2 & Hnew2 & Hon2).
      exists (new1 ++ new2). rewrite Hnew2, <- app_assoc. split; [done|].
      apply Forall_app. split; [done|].
      eapply Forall_impl; [exact Hon2|].
      intros c Hc sp st Heq.
      destruct (Hc sp st Heq) as (l & name & options & ctx & ->).
      exists (new1 ++ l), name, options, ctx. by rewrite app_assoc.
    + by exists new1.
Qed.

(** The [try] block of [processJob]: the status of the job span is set
    first, and whatever status is set after that is set on a span handed out
    later. *)
Lemma job_body_status_calls (job : Job) (tracer : Tracer) (ctx : Context)
    (span : Span) (log : list call) :
  let set_status :=
    SpanSetStatus span (status_of (strict_eq (job_conclusion job) "success")) in
  ∃ rest,
    snd ((setSpanStatus span (strict_eq (job_conclusion job) "success") ;;
          match job_steps job with
          | Some steps => processSteps steps tracer ctx
          | None => ret tt
          end)%eff log)
    = log ++ set_status :: rest
    ∧ Forall (on_later_span tracer (log ++ [set_status])) rest.
Proof.
  simpl. unfold bind. rewrite setSpanStatus_run.
  destruct (call_outcome _ _) as [[]|e]; simpl.
  - destruct (job_steps job) as [steps|].
    + destruct (processSteps_status_spans steps tracer ctx
                  (log ++ [SpanSetStatus span
                     (status_of (strict_eq (job_conclusion job) "success"))]))
        as (new & Hnew & Hon).
      exists new. by rewrite Hnew, <- app_assoc.
    + exists []. split; [done | constructor].
  - exists []. split; [done | constructor].
Qed.

(** ** The claims *)

(** C1. Whatever the tracer does and whatever the job processor is, the
    first call of [handleJobsAndSteps] sets the status of the root span:
    ERROR iff some job of the list has a conclusion other than [success],
    OK iff every job concluded with [success].  No later call of
    [handleJobsAndSteps] on the root span sets a status again, so the outcome
    of the processing of the jobs has no part in it: in the units of work,
    too, [handleJobsAndSteps] adds no status call to the calls that the job
    processor makes for its job. *)
Theorem root_status_from_job_conclusions (tracer : Tracer) (span : Span)
    (jobs : list Job) (rootAttributes : RawAttributes)
    (processJobFn : Job -> Tracer -> Context -> Eff unit) (log : list call) :
  ∃ status rest,
    snd (handleJobsAndSteps tracer span jobs rootAttributes processJobFn log)
    = log ++ SpanSetStatus span status :: rest
    ∧ (status_code status = ERROR
       ↔ ∃ job, job ∈ jobs ∧ job_conclusion job ≠ Some "success")
    ∧ (status_code status = OK
       ↔ ∀ job, job ∈ jobs → job_conclusion job = Some "success")
    ∧ Forall (fun c => is_SpanSetStatus c = false) rest
    ∧ ∀ units, Forked units ∈ rest →
        Forall2
          (fun job unit_log =>
             ∃ tail,
               unit_log
               = snd (processJobFn job tracer
                        (trace_setSpan ROOT_CONTEXT span) []) ++ tail
               ∧ Forall (fun c => is_SpanSetStatus c = false) tail)
          jobs units.
Proof.
  destruct (handleJobsAndSteps_calls tracer span jobs rootAttributes
              processJobFn log) as (rest & Hlog & Hrest).
  exists (root_status jobs), rest.
  split; [done|].
  assert (∀ units, Forked units ∈ rest →
            Forall2
              (fun job unit_log =>
                 ∃ tail,
                   unit_log
                   = snd (processJobFn job tracer
                            (trace_setSpan ROOT_CONTEXT span) []) ++ tail
                   ∧ Forall (fun c => is_SpanSetStatus c = false) tail)
              jobs units) as Hunits.
  { intros units Hin.
    assert (units = map (fun job =>
                           snd (job_unit tracer span processJobFn job []))
                      jobs) as ->.
    { rewrite handleJobsAndSteps_run in Hlog. cbv zeta in Hlog.
      destruct (throws log _); simpl in Hlog.
      - apply app_inv_head in Hlog. injection Hlog as <-.
        by apply elem_of_nil in Hin.
      - destruct (throws (log ++ _) _); simpl in Hlog;
          apply app_inv_head in Hlog; injection Hlog as <-.
        + apply list_elem_of_singleton in Hin. discriminate Hin.
        + apply elem_of_cons in Hin as [Hin|Hin]; [discriminate Hin|].
          apply list_elem_of_singleton in Hin. by injection Hin. }
    apply Forall2_fmap_r, Forall_Forall2_diag, Forall_forall.
    intros job _. unfold compose, job_unit, try_catch, console_error.
    cbv beta zeta.
    destruct (processJobFn job tracer _ []) as [[[]|e] l]; simpl.
    - exists []. split; [by rewrite app_nil_r | constructor].
    - eexists [_]. split; [done|]. by repeat constructor. }
  pose proof (anyJobError_true jobs) as Hany.
  unfold root_status. simpl.
  destruct (anyJobError jobs).
  - split; [|split; [|split]].
    + split; [intros _; by apply Hany | done].
    + split; [done|]. intros Hall.
      destruct (proj1 Hany eq_refl) as (job & Hin & Hne).
      by destruct (Hne (Hall job Hin)).
    + eapply Forall_impl; [exact Hrest|]. by intros c [H1 _].
    + exact Hunits.
  - split; [|split; [|split]].
    + split; [done|]. intros Hex. apply Hany in Hex. done.
    + split; [|done]. intros _ job Hin.
      destruct (decide (job_conclusion job = Some "success")) as [|Hne];
        [done|].
      assert (false = true) as Habs by (apply Hany; by exists job). done.
    + eapply Forall_impl; [exact Hrest|]. by intros c [H1 _].
    + exact Hunits.
Qed.


(** C6. Once the job span is open, the call that follows sets its status
    from the job's own conclusion: OK iff the conclusion is [success], ERROR
    otherwise.  Whatever the steps are and however they concluded, a status
    set by a later call of [processJob] is set on a span that the tracer
    handed out after that call; so when the tracer hands out, for the spans
    it opens afterwards, handles other than that of the job span, the status
    of the job span is not set again.  The job processor ends with the end
    of the job span. *)
Theorem job_status_from_own_conclusion (job : Job) (tracer : Tracer)
    (parentCtx : Context) (log : list call) :
  let span := job_span tracer log job parentCtx in
  throws log (job_start_call job parentCtx) = None →
  ∃ status middle,
    snd (processJob job tracer parentCtx log)
    = log ++ job_start_call job parentCtx
          :: SpanSetStatus span status
          :: middle
          ++ [SpanEnd span (date_or_undefined (job_completed_at job))]
    ∧ (status_code status = OK ↔ job_conclusion job = Some "success")
    ∧ (status_code status = ERROR ↔ job_conclusion job ≠ Some "success")
    ∧ Forall (on_later_span tracer
                (log ++ [job_start_call job parentCtx;
                         SpanSetStatus span status])) middle
    ∧ ((∀ l name options ctx,
          tracer_span tracer (log ++ job_start_call job parentCtx :: l)
            name options ctx ≠ span) →
       ∀ sp st, SpanSetStatus sp st ∈ middle → sp ≠ span).
Proof.
  intros span Hstart.
  pose proof (processJob_run job tracer parentCtx log Hstart) as Hrun.
  cbv zeta in Hrun. fold span in Hrun.
  destruct (job_body_status_calls job tracer
              (steps_context tracer parentCtx span) span
              (log ++ [job_start_call job parentCtx])) as (rest & Hrest & Hon).
  cbv zeta in Hrest, Hon. rewrite <- app_assoc in Hon. simpl in Hon.
  set (set_status :=
         SpanSetStatus span
           (status_of (strict_eq (job_conclusion job) "success"))) in *.
  set (failed := CoreSetFailed ("Failed to process job " +:+ job_name job))
    in *.
  assert (∃ middle,
            (middle = rest ∨ middle = rest ++ [failed])
            ∧ snd (processJob job tracer parentCtx log)
              = log ++ job_start_call job parentCtx :: set_status :: middle
                ++ [SpanEnd span (date_or_undefined (job_completed_at job))])
    as (middle & Hmiddle & Hlog).
  { rewrite Hrun, Hrest. simpl. destruct (fst _).
    - exists rest. split; [by left|]. by rewrite <- !app_assoc.
    - exists (rest ++ [failed]). split; [by right|]. by rewrite <- !app_assoc. }
  assert (Forall (on_later_span tracer
                    (log ++ [job_start_call job parentCtx; set_status]))
            middle) as Hlater.
  { destruct Hmiddle as [-> | ->]; [done|].
    apply Forall_app. split; [done|].
    repeat constructor. by intros sp st. }
  destruct (status_of_code (strict_eq (job_conclusion job) "success"))
    as [Hok Herr].
  exists (status_of (strict_eq (job_conclusion job) "success")), middle.
  split; [exact Hlog|].
  split; [rewrite Hok; apply strict_eq_true|].
  split; [rewrite Herr; apply strict_eq_false|].
  split; [exact Hlater|].
  intros Hfresh sp st Hin. rewrite Forall_forall in Hlater.
  destruct (Hlater _ Hin sp st eq_refl) as (l & name & options & ctx & ->).
  rewrite <- app_assoc. apply Hfresh.
Qed.



(** C5. Let the two calls of [handleJobsAndSteps] on the root span return,
    and let [failing] be a job of the list whose span is opened, whose status
    call returns and whose steps then throw [e].  Then: (1) [processJob]
    catches [e]: it logs the failure, ends the job span, and its outcome is
    that of this last call, not [e]; (2) [handleJobsAndSteps] returns after
    running one unit of work per job, each on the log of that job alone;
    (3) every job of the list whose span is opened has that span ended in its
    unit.  In (1) and (3) the span is ended at the date of the job's
    [completed_at] when that is a non-empty string, and without an end time
    when it is null or empty. *)
Theorem job_failure_is_isolated (tracer : Tracer) (span : Span)
    (jobs : list Job) (rootAttributes : RawAttributes) (log : list call)
    (failing : Job) (steps : list WorkflowStep) (e : Error) :
  let ctx := trace_setSpan ROOT_CONTEXT span in
  let set_root_status := SpanSetStatus span (root_status jobs) in
  let set_root_attrs :=
    SpanSetAttributes span (removeUndefinedProperties rootAttributes) in
  let jspan := job_span tracer [] failing ctx in
  let set_status :=
    SpanSetStatus jspan (status_of (strict_eq (job_conclusion failing) "success")) in
  let steps_run :=
    processSteps steps tracer (steps_context tracer ctx jspan)
      [job_start_call failing ctx; set_status] in
  let log2 :=
    snd steps_run
    ++ [CoreSetFailed ("Failed to process job " +:+ job_name failing)] in
  throws log set_root_status = None →
  throws (log ++ [set_root_status]) set_root_attrs = None →
  failing ∈ jobs →
  job_steps failing = Some steps →
  throws [] (job_start_call failing ctx) = None →
  throws [job_start_call failing ctx] set_status = None →
  fst steps_run = Thrown e →
  (∃ endTime,
     processJob failing tracer ctx []
     = (call_outcome log2 (SpanEnd jspan endTime),
        log2 ++ [SpanEnd jspan endTime])
     ∧ (∀ s, job_completed_at failing = Some s → s ≠ "" →
             endTime = Some (Date_parse s))
     ∧ (job_completed_at failing = None ∨ job_completed_at failing = Some "" →
        endTime = None))
  ∧ handleJobsAndSteps tracer span jobs rootAttributes processJob log
    = (Returned tt,
       log ++ [set_root_status; set_root_attrs;
               Forked (map (fun job => snd (job_unit tracer span processJob job []))
                         jobs)])
  ∧ ∀ job, job ∈ jobs → throws [] (job_start_call job ctx) = None →
      ∃ middle tail endTime,
        snd (job_unit tracer span processJob job [])
        = job_start_call job ctx :: middle
          ++ SpanEnd (job_span tracer [] job ctx) endTime :: tail
        ∧ (tail = [] ∨ ∃ msg, tail = [ConsoleError msg])
        ∧ (∀ s, job_completed_at job = Some s → s ≠ "" →
                endTime = Some (Date_parse s))
        ∧ (job_completed_at job = None ∨ job_completed_at job = Some "" →
           endTime = None).
Proof.
  intros ctx set_root_status set_root_attrs jspan set_status steps_run
    log2 Hrs Hra Hin Hsteps Hstart Hstatus Hthrown.
  split; [|split].
  - exists (date_or_undefined (job_completed_at failing)).
    split; [|apply date_or_undefined_cases].
    pose proof (processJob_run failing tracer ctx [] Hstart) as Hrun.
    cbv zeta in Hrun. rewrite app_nil_l in Hrun. fold jspan in Hrun.
    assert ((setSpanStatus jspan (strict_eq (job_conclusion failing) "success") ;;
             match job_steps failing with
             | Some steps =>
                 processSteps steps tracer (steps_context tracer ctx jspan)
             | None => ret tt
             end)%eff [job_start_call failing ctx] = steps_run) as Hbody.
    { rewrite Hsteps. unfold bind. rewrite setSpanStatus_run.
      unfold call_outcome. fold set_status. by rewrite Hstatus. }
    rewrite Hbody, Hthrown in Hrun. exact Hrun.
  - rewrite handleJobsAndSteps_run. simpl.
    fold set_root_status set_root_attrs. by rewrite Hrs, Hra.
  - intros job Hjob Hjstart.
    destruct (job_unit_log tracer span job []) as (tail & Hlog & Htail).
    destruct (processJob_opens_and_closes job tracer ctx [] Hjstart)
      as [middle Hpj].
    simpl in Hpj. fold ctx in Hlog. rewrite Hpj in Hlog.
    eexists (_ :: middle), tail, (date_or_undefined (job_completed_at job)).
    split; [|split; [done | apply date_or_undefined_cases]].
    rewrite Hlog. simpl. by rewrite <- app_assoc.
Qed.

(** C10, as the code has it.  Let the [finally] block select [last] and
    the root span be open.  A job whose [completed_at] is null, empty or not
    a date compares as 0; if [last] is such a job then no completed job has a
    completion time later than 0; the root span is ended from the
    [completed_at] of [last]: without an end time when it is null or empty,
    and with the Invalid Date when it is a non-empty string that is not a
    date. *)
Theorem missing_completion_time_compares_as_zero (startTime : string)
    (jobs : list Job) (tracer : Tracer) (rootAttributes : RawAttributes)
    (log : list call) (last : Job) :
  lastCompletedJob jobs = Returned last →
  throws log (root_start_call startTime) = None →
  (∀ job, completion_time job = None → completed_ms job = 0%Z)
  ∧ (completion_time last = None →
     ∀ job t, job ∈ jobs → job_status job = "completed" →
              completion_time job = Some t → (t ≤ 0)%Z)
  ∧ (∃ before,
       snd (createSpansForJobsAndSteps startTime jobs tracer rootAttributes log)
       = before ++ [SpanEnd (root_span tracer log startTime)
                      (date_or_undefined (job_completed_at last))])
  ∧ (job_completed_at last = None ∨ job_completed_at last = Some "" →
     date_or_undefined (job_completed_at last) = None)
  ∧ (∀ s, job_completed_at last = Some s → s ≠ "" → Date_parse s = None →
          date_or_undefined (job_completed_at last) = Some None).
Proof.
  intros Hlast Hstart.
  destruct (lastCompletedJob_latest jobs last Hlast) as (Hin & Hst & Hmax).
  split; [|split; [|split; [|split]]].
  - intros job Hnone. by rewrite completed_ms_of_time, Hnone.
  - intros Hnone job t Hjob Hjst Ht.
    specialize (Hmax job Hjob Hjst).
    rewrite !completed_ms_of_time, Hnone, Ht in Hmax. exact Hmax.
  - rewrite (createSpansForJobsAndSteps_run startTime jobs tracer
               rootAttributes log Hstart).
    rewrite Hlast. simpl.
    eexists (_ ++ [_]). by rewrite <- app_assoc.
  - apply date_or_undefined_cases.
  - intros s Hs Hne Hnan.
    destruct (date_or_undefined_cases (job_completed_at last)) as [Hd _].
    by rewrite (Hd s Hs Hne), Hnan.
Qed.

(** ** Further properties of the sanitizer *)

(** X1. The sanitizer keeps exactly the entries whose value is set and
    whose key is not [__proto__], with their values.  So a table without
    unset values comes back as it went in, less its [__proto__] entry, and
    sanitizing a sanitized table changes nothing. *)
Theorem removeUndefinedProperties_as_raw (obj : RawAttributes) (m : Attributes) :
  (∀ k v, removeUndefinedProperties obj !! k = Some v
          ↔ k ≠ "__proto__" ∧ obj !! k = Some (Some v))
  ∧ removeUndefinedProperties (as_raw m) = delete "__proto__" m
  ∧ removeUndefinedProperties (as_raw (removeUndefinedProperties obj))
    = removeUndefinedProperties obj.
Proof.
  split; [|split].
  - intros k v. rewrite removeUndefinedProperties_lookup.
    destruct (obj !! k) as [[w|]|]; destruct (decide (k = "__proto__"));
      split; try congruence; try (intros [? ?]; congruence).
    intros [= ->]. done.
  - apply map_eq; intros k.
    rewrite removeUndefinedProperties_lookup.
    unfold as_raw. rewrite lookup_fmap.
    destruct (decide (k = "__proto__")) as [->|Hk].
    + rewrite lookup_delete_eq. by destruct (m !! "__proto__").
    + rewrite lookup_delete_ne by done. by destruct (m !! k).
  - apply map_eq; intros k.
    rewrite removeUndefinedProperties_lookup.
    unfold as_raw. rewrite lookup_fmap.
    rewrite removeUndefinedProperties_lookup.
    destruct (obj !! k) as [[w|]|]; destruct (decide (k = "__proto__")); done.
Qed.

(** X2. The sanitizer follows the updates of its argument.  Setting a key
    to a value sets it in the result, unless the key is [__proto__], which
    changes nothing; setting a key to [undefined] or deleting it removes it
    from the result. *)
Theorem removeUndefinedProperties_update (obj : RawAttributes) (k : string) :
  (∀ v, removeUndefinedProperties (<[k := Some v]> obj)
        = if decide (k = "__proto__") then removeUndefinedProperties obj
          else <[k := v]> (removeUndefinedProperties obj))
  ∧ removeUndefinedProperties (<[k := None]> obj)
    = delete k (removeUndefinedProperties obj)
  ∧ removeUndefinedProperties (delete k obj)
    = delete k (removeUndefinedProperties obj).
Proof.
  split; [|split]; [intros v| |]; apply map_eq; intros j.
  - rewrite removeUndefinedProperties_lookup.
    destruct (decide (k = "__proto__")) as [Hk|Hk].
    + subst k. rewrite removeUndefinedProperties_lookup.
      destruct (decide ("__proto__" = j)) as [Hj|Hj].
      * subst j. rewrite lookup_insert_eq.
        destruct (decide ("__proto__" = "__proto__")); [|done].
        by destruct (obj !! "__proto__") as [[w|]|].
      * by rewrite lookup_insert_ne.
    + destruct (decide (k = j)) as [Hj|Hj].
      * subst j. rewrite !lookup_insert_eq.
        by destruct (decide (k = "__proto__")).
      * rewrite !lookup_insert_ne by done.
        by rewrite removeUndefinedProperties_lookup.
  - rewrite removeUndefinedProperties_lookup.
    destruct (decide (k = j)) as [<-|Hne].
    + by rewrite lookup_insert_eq, lookup_delete_eq.
    + rewrite lookup_insert_ne, lookup_delete_ne by done.
      by rewrite removeUndefinedProperties_lookup.
  - rewrite removeUndefinedProperties_lookup.
    destruct (decide (k = j)) as [<-|Hne].
    + by rewrite !lookup_delete_eq.
    + rewrite !lookup_delete_ne by done.
      by rewrite removeUndefinedProperties_lookup.
Qed.

(** X3. The sanitizer adds no key and so never grows the table; the key
    [__proto__] is never in its result; the result is empty exactly when no
    key of the argument other than [__proto__] holds a value. *)
Theorem removeUndefinedProperties_shrinks (obj : RawAttributes) :
  dom (removeUndefinedProperties obj) ⊆ dom obj
  ∧ removeUndefinedProperties obj !! "__proto__" = None
  ∧ (size (removeUndefinedProperties obj) ≤ size obj)%nat
  ∧ (removeUndefinedProperties obj = ∅
     ↔ ∀ k, k = "__proto__" ∨ obj !! k = None ∨ obj !! k = Some None).
Proof.
  assert (dom (removeUndefinedProperties obj) ⊆ dom obj) as Hdom.
  { intros k. rewrite !elem_of_dom, removeUndefinedProperties_lookup.
    destruct (obj !! k) as [[v|]|]; intros [w Hw]; by eauto. }
  split; [done|]. split; [|split].
  - rewrite removeUndefinedProperties_lookup.
    by destruct (obj !! "__proto__") as [[v|]|].
  - rewrite <- !size_dom. by apply subseteq_size.
  - split.
    + intros Hempty k.
      apply (f_equal (fun m : Attributes => m !! k)) in Hempty.
      rewrite removeUndefinedProperties_lookup, lookup_empty in Hempty.
      destruct (obj !! k) as [[v|]|]; [|by eauto..].
      destruct (decide (k = "__proto__")); [by left | done].
    + intros Hall. apply map_eq; intros k.
      rewrite removeUndefinedProperties_lookup, lookup_empty.
      destruct (Hall k) as [-> | [-> | ->]]; [|done..].
      by destruct (obj !! "__proto__") as [[v|]|].
Qed.

(** X4. The attributes set on a step span: [step.number] and [step.status]
    always; [step.started_at] and [step.conclusion] exactly when the field is
    a non-empty string; no other key. *)
Theorem step_attributes_keys (step : WorkflowStep) :
  let attrs := removeUndefinedProperties (step_raw_attributes step) in
  attrs !! "step.number" = Some (ANumber (step_number step))
  ∧ attrs !! "step.status" = Some (AString (step_status step))
  ∧ attrs !! "step.started_at"
    = (if truthy (step_started_at step)
       then AString <$> step_started_at step else None)
  ∧ attrs !! "step.conclusion"
    = (if truthy (step_conclusion step)
       then AString <$> step_conclusion step else None)
  ∧ ∀ k, k ≠ "step.number" → k ≠ "step.status" → k ≠ "step.started_at" →
         k ≠ "step.conclusion" → attrs !! k = None.
Proof.
  simpl. unfold step_raw_attributes, string_or_undefined.
  repeat split.
  - rewrite removeUndefinedProperties_lookup. by rewrite lookup_insert_eq.
  - rewrite removeUndefinedProperties_lookup.
    rewrite lookup_insert_ne by done. by rewrite lookup_insert_eq.
  - rewrite removeUndefinedProperties_lookup.
    do 2 (rewrite lookup_insert_ne by done). rewrite lookup_insert_eq.
    destruct (step_started_at step) as [s|]; [|done].
    by destruct (truthy (Some s)).
  - rewrite removeUndefinedProperties_lookup.
    do 3 (rewrite lookup_insert_ne by done). rewrite lookup_insert_eq.
    destruct (step_conclusion step) as [s|]; [|done].
    by destruct (truthy (Some s)).
  - intros k H1 H2 H3 H4. rewrite removeUndefinedProperties_lookup.
    do 4 (rewrite lookup_insert_ne by done). by rewrite lookup_empty.
Qed.

(** ** Step spans when a call throws *)

(** One iteration of the loop of [processSteps], whatever the collaborators
    do: either the four calls of the step are made and the iteration returns,
    or the calls stop at the first one that throws. *)
Lemma process_one_step_any (step : WorkflowStep) (tracer : Tracer)
    (jobCtx : Context) (log : list call) :
  let span := tracer_span tracer log (step_name step)
                (step_span_options step) jobCtx in
  let iteration :=
    startActiveSpan tracer (step_name step) (step_span_options step) jobCtx
      (fun span _ =>
         span_setAttributes span
           (removeUndefinedProperties (step_raw_attributes step)) ;;
         setSpanStatus span (strict_eq (step_conclusion step) "success") ;;
         span_end span (date_or_undefined (step_completed_at step)))%eff in
  iteration log = (Returned tt, log ++ step_calls step jobCtx span)
  ∨ ∃ e k, (1 ≤ k ≤ 4)%nat
           ∧ iteration log
             = (Thrown e, log ++ take k (step_calls step jobCtx span)).
Proof.
  simpl.
  unfold startActiveSpan, bind, span_setAttributes, span_end.
  destruct (throws log _) as [e|] eqn:H1.
  { right. exists e, 1%nat. split; [lia|done]. }
  rewrite invoke_run. unfold call_outcome.
  destruct (throws (log ++ [_]) _) as [e|] eqn:H2.
  { right. exists e, 2%nat. split; [lia|]. by rewrite <- app_assoc. }
  rewrite setSpanStatus_run. unfold call_outcome.
  destruct (throws ((log ++ [_]) ++ [_]) _) as [e|] eqn:H3.
  { right. exists e, 3%nat. split; [lia|]. by rewrite <- !app_assoc. }
  rewrite invoke_run. unfold call_outcome.
  destruct (throws (((log ++ [_]) ++ [_]) ++ [_]) _) as [e|] eqn:H4.
  { right. exists e, 4%nat. split; [lia|]. by rewrite <- !app_assoc. }
  left. by rewrite <- !app_assoc.
Qed.

(** [processSteps], whatever the collaborators do: it returns after the
    calls of every step, or it throws in the middle of the calls of one step,
    after the calls of the steps before it and before any call for the steps
    after it. *)
Lemma processSteps_any (steps : list WorkflowStep) (tracer : Tracer)
    (jobCtx : Context) (log : list call) :
  (∃ spans,
     length spans = length steps
     ∧ processSteps steps tracer jobCtx log
       = (Returned tt,
          log ++ concat (zip_with (fun step span => step_calls step jobCtx span)
                           steps spans)))
  ∨ (∃ e done failing rest spans span k,
       steps = done ++ failing :: rest
       ∧ length spans = length done
       ∧ (1 ≤ k ≤ 4)%nat
       ∧ processSteps steps tracer jobCtx log
         = (Thrown e,
            log ++ concat (zip_with (fun step span => step_calls step jobCtx span)
                             done spans)
            ++ take k (step_calls failing jobCtx span))).
Proof.
  revert log. induction steps as [|step steps IH]; intros log.
  - left. exists []. split; [done|]. simpl. by rewrite app_nil_r.
  - assert (processSteps (step :: steps) tracer jobCtx log
            = match
                startActiveSpan tracer (step_name step) (step_span_options step)
                  jobCtx
                  (fun span _ =>
                     span_setAttributes span
                       (removeUndefinedProperties (step_raw_attributes step)) ;;
                     setSpanStatus span
                       (strict_eq (step_conclusion step) "success") ;;
                     span_end span
                       (date_or_undefined (step_completed_at step)))%eff log
              with
              | (Returned _, log1) => processSteps steps tracer jobCtx log1
              | (Thrown e, log1) => (Thrown e, log1)
              end) as Hunfold by reflexivity.
    rewrite Hunfold. clear Hunfold.
    destruct (process_one_step_any step tracer jobCtx log)
      as [Hok | (e & k & Hk & Hthrown)]; cbv zeta in *.
    + rewrite Hok.
      set (span := tracer_span tracer log (step_name step)
                     (step_span_options step) jobCtx).
      destruct (IH (log ++ step_calls step jobCtx span))
        as [(spans & Hlen & Hrun)
           | (e & done & failing & rest & spans & sp & k & -> & Hlen & Hk & Hrun)];
        rewrite Hrun.
      * left. exists (span :: spans). split; [simpl; by rewrite Hlen|].
        cbn [zip_with concat]. by rewrite <- !app_assoc.
      * right. exists e, (step :: done), failing, rest, (span :: spans), sp, k.
        split; [done|]. split; [simpl; by rewrite Hlen|]. split; [done|].
        cbn [zip_with concat]. by rewrite <- !app_assoc.
    + rewrite Hthrown. right.
      exists e, [], step, steps, [],
        (tracer_span tracer log (step_name step) (step_span_options step) jobCtx),
        k.
      by repeat split; try lia.
Qed.

(** X5. When [processSteps] throws, the steps split around the step at
    which it threw: the steps before it have had their four calls, the
    failing step between one and four of its calls, and no call at all is
    made for the steps after it. *)
Theorem processSteps_stops_at_first_throw (steps : list WorkflowStep)
    (tracer : Tracer) (jobCtx : Context) (log : list call) (e : Error) :
  fst (processSteps steps tracer jobCtx log) = Thrown e →
  ∃ done failing rest spans span k,
    steps = done ++ failing :: rest
    ∧ length spans = length done
    ∧ (1 ≤ k ≤ 4)%nat
    ∧ snd (processSteps steps tracer jobCtx log)
      = log ++ concat (zip_with (fun step span => step_calls step jobCtx span)
                         done spans)
        ++ take k (step_calls failing jobCtx span).
Proof.
  intros Hthrown.
  destruct (processSteps_any steps tracer jobCtx log)
    as [(spans & Hlen & Hrun)
       | (e' & done & failing & rest & spans & span & k & Hs & Hlen & Hk & Hrun)].
  - by rewrite Hrun in Hthrown.
  - exists done, failing, rest, spans, span, k. by rewrite Hrun.
Qed.


(** ** Job spans when a call throws *)

(** The calls made for steps never include [core.setFailed]. *)
Lemma step_calls_no_setFailed (steps : list WorkflowStep) (jobCtx : Context)
    (spans : list Span) :
  Forall (fun c => ∀ msg, c ≠ CoreSetFailed msg)
    (concat (zip_with (fun step span => step_calls step jobCtx span)
               steps spans)).
Proof.
  revert spans. induction steps as [|step steps IH]; intros [|span spans];
    cbn [zip_with concat]; try by constructor.
  apply Forall_app. split; [|apply IH].
  unfold step_calls, step_start_call. repeat constructor; by intros msg.
Qed.

Lemma processSteps_no_setFailed (steps : list WorkflowStep) (tracer : Tracer)
    (jobCtx : Context) (log : list call) :
  ∃ new,
    snd (processSteps steps tracer jobCtx log) = log ++ new
    ∧ Forall (fun c => ∀ msg, c ≠ CoreSetFailed msg) new.
Proof.
  destruct (processSteps_any steps tracer jobCtx log)
    as [(spans & Hlen & Hr)
       | (e & done & failing & rest & spans & span & k & _ & Hlen & Hk & Hr)];
    rewrite Hr; simpl; eexists; (split; [reflexivity|]).
  - apply step_calls_no_setFailed.
  - apply Forall_app. split; [apply step_calls_no_setFailed|].
    apply Forall_take. unfold step_calls, step_start_call.
    repeat constructor; by intros msg.
Qed.

(** The [try] block of [processJob] never calls [core.setFailed] itself. *)
Lemma job_body_no_setFailed (job : Job) (tracer : Tracer) (ctx : Context)
    (span : Span) (log : list call) :
  ∃ new,
    snd ((setSpanStatus span (strict_eq (job_conclusion job) "success") ;;
          match job_steps job with
          | Some steps => processSteps steps tracer ctx
          | None => ret tt
          end)%eff log)
    = log ++ new
    ∧ Forall (fun c => ∀ msg, c ≠ CoreSetFailed msg) new.
Proof.
  unfold bind. rewrite setSpanStatus_run.
  destruct (call_outcome _ _) as [[]|e]; simpl.
  - destruct (job_steps job) as [steps|].
    + destruct (processSteps_no_setFailed steps tracer ctx
                  (log ++ [SpanSetStatus span
                     (status_of (strict_eq (job_conclusion job) "success"))]))
        as (new & Hnew & Hno).
      eexists (_ :: new). rewrite Hnew, <- app_assoc. split; [done|].
      constructor; [by intros msg | done].
    + eexists [_]. split; [done|]. repeat constructor; by intros msg.
  - eexists [_]. split; [done|]. repeat constructor; by intros msg.
Qed.

(** X7. [processJob] throws only what opening or ending the job span
    throws.  When the tracer refuses the span nothing else is called.  When
    the span is open and its [end] returns, [processJob] returns, whatever
    the status call and the steps have thrown; [core.setFailed] is called
    exactly when one of them threw. *)
Theorem processJob_exception_safety (job : Job) (tracer : Tracer)
    (parentCtx : Context) (log : list call) :
  let span := job_span tracer log job parentCtx in
  let closing := SpanEnd span (date_or_undefined (job_completed_at job)) in
  let failed := CoreSetFailed ("Failed to process job " +:+ job_name job) in
  (∀ e, throws log (job_start_call job parentCtx) = Some e →
        processJob job tracer parentCtx log
        = (Thrown e, log ++ [job_start_call job parentCtx]))
  ∧ (throws log (job_start_call job parentCtx) = None →
     (∀ l, throws l closing = None) →
     ∃ new,
       processJob job tracer parentCtx log = (Returned tt, log ++ new)
       ∧ (failed ∈ new
          ↔ ∃ e, fst ((setSpanStatus span
                         (strict_eq (job_conclusion job) "success") ;;
                       match job_steps job with
                       | Some steps =>
                           processSteps steps tracer
                             (steps_context tracer parentCtx span)
                       | None => ret tt
                       end)%eff (log ++ [job_start_call job parentCtx]))
                 = Thrown e)).
Proof.
  simpl. split.
  - intros e Hstart. unfold processJob, startActiveSpan.
    unfold job_start_call in Hstart. by rewrite Hstart.
  - intros Hstart Hend.
    pose proof (processJob_run job tracer parentCtx log Hstart) as Hrun.
    cbv zeta in Hrun. rewrite Hrun. clear Hrun.
    set (span := job_span tracer log job parentCtx) in *.
    destruct (job_body_no_setFailed job tracer (steps_context tracer parentCtx span)
                span (log ++ [job_start_call job parentCtx]))
      as (new & Hnew & Hno).
    rewrite Forall_forall in Hno.
    unfold call_outcome. rewrite Hend, Hnew.
    destruct (fst _) as [[]|e] eqn:Hbody.
    + eexists. rewrite <- !app_assoc.
      split; [reflexivity|]. split; [|by intros [e He]].
      intros Hin. exfalso. simpl in Hin.
      apply elem_of_cons in Hin as [Hin|Hin]; [done|].
      apply elem_of_app in Hin as [Hin|Hin].
      * exact (Hno _ Hin _ eq_refl).
      * apply list_elem_of_singleton in Hin. done.
    + eexists. rewrite <- !app_assoc.
      split; [reflexivity|]. split; [by eexists|]. intros _. simpl.
      apply list_elem_of_further.
      apply elem_of_app. right. apply list_elem_of_here.
Qed.


(** X8. When the status call on an open job span throws, [processJob]
    skips the steps altogether: it reports the failure and ends the span. *)
Theorem processJob_status_throw_skips_steps (job : Job) (tracer : Tracer)
    (parentCtx : Context) (log : list call) (e : Error) :
  let span := job_span tracer log job parentCtx in
  let set_status :=
    SpanSetStatus span (status_of (strict_eq (job_conclusion job) "success")) in
  throws log (job_start_call job parentCtx) = None →
  throws (log ++ [job_start_call job parentCtx]) set_status = Some e →
  snd (processJob job tracer parentCtx log)
  = log ++ [ job_start_call job parentCtx;
             set_status;
             CoreSetFailed ("Failed to process job " +:+ job_name job);
             SpanEnd span (date_or_undefined (job_completed_at job)) ].
Proof.
  intros span set_status Hstart Hstatus.
  pose proof (processJob_run job tracer parentCtx log Hstart) as Hrun.
  cbv zeta in Hrun. rewrite Hrun. clear Hrun. fold span.
  unfold bind. rewrite setSpanStatus_run. unfold call_outcome.
  fold set_status. rewrite Hstatus. simpl.
  by rewrite <- !app_assoc.
Qed.

(** X9. A job without steps, be it [steps] absent or the empty array: once
    its span is open and the status call returns, [processJob] makes three
    calls in all, opens no other span and reports no failure. *)
Theorem processJob_without_steps (job : Job) (tracer : Tracer)
    (parentCtx : Context) (log : list call) :
  let span := job_span tracer log job parentCtx in
  let set_status :=
    SpanSetStatus span (status_of (strict_eq (job_conclusion job) "success")) in
  job_steps job = None ∨ job_steps job = Some [] →
  throws log (job_start_call job parentCtx) = None →
  throws (log ++ [job_start_call job parentCtx]) set_status = None →
  snd (processJob job tracer parentCtx log)
  = log ++ [ job_start_call job parentCtx;
             set_status;
             SpanEnd span (date_or_undefined (job_completed_at job)) ].
Proof.
  intros span set_status Hsteps Hstart Hstatus.
  pose proof (processJob_run job tracer parentCtx log Hstart) as Hrun.
  cbv zeta in Hrun. rewrite Hrun. clear Hrun. fold span.
  unfold bind. rewrite setSpanStatus_run. unfold call_outcome.
  fold set_status. rewrite Hstatus.
  destruct Hsteps as [-> | ->]; simpl; by rewrite <- !app_assoc.
Qed.


(** ** The fan-out, whatever the job processor is *)

(** X11. [handleJobsAndSteps] throws exactly what the status call or the
    attribute call on the root span throws, and then no job is dispatched:
    the attribute call is not made after a status call that threw, and the
    fan-out is not reached after either threw. *)
Theorem handleJobsAndSteps_throws_before_dispatch (tracer : Tracer)
    (span : Span) (jobs : list Job) (rootAttributes : RawAttributes)
    (processJobFn : Job -> Tracer -> Context -> Eff unit) (log : list call)
    (e : Error) :
  let set_status := SpanSetStatus span (root_status jobs) in
  let set_attrs :=
    SpanSetAttributes span (removeUndefinedProperties rootAttributes) in
  fst (handleJobsAndSteps tracer span jobs rootAttributes processJobFn log)
  = Thrown e →
  (throws log set_status = Some e
   ∧ snd (handleJobsAndSteps tracer span jobs rootAttributes processJobFn log)
     = log ++ [set_status])
  ∨ (throws log set_status = None
     ∧ throws (log ++ [set_status]) set_attrs = Some e
     ∧ snd (handleJobsAndSteps tracer span jobs rootAttributes processJobFn log)
       = log ++ [set_status; set_attrs]).
Proof.
  intros set_status set_attrs.
  rewrite handleJobsAndSteps_run. cbv zeta. fold set_status set_attrs.
  destruct (throws log set_status) as [e1|].
  - simpl. intros [= ->]. by left.
  - destruct (throws (log ++ [set_status]) set_attrs) as [e2|]; simpl.
    + intros [= ->]. by right.
    + done.
Qed.

(** X12. Once the two calls on the root span have returned,
    [handleJobsAndSteps] returns whatever the job processor does.  It runs
    the processor once per job, in the order of the list, each time on an
    empty log and with the context that carries the root span; the log of a
    unit is the log of the processor, followed by one [console.error] naming
    the job and the exception when the processor threw. *)
Theorem handleJobsAndSteps_runs_every_job (tracer : Tracer) (span : Span)
    (jobs : list Job) (rootAttributes : RawAttributes)
    (processJobFn : Job -> Tracer -> Context -> Eff unit) (log : list call) :
  let set_status := SpanSetStatus span (root_status jobs) in
  let set_attrs :=
    SpanSetAttributes span (removeUndefinedProperties rootAttributes) in
  let ctx := trace_setSpan ROOT_CONTEXT span in
  throws log set_status = None →
  throws (log ++ [set_status]) set_attrs = None →
  ∃ units,
    handleJobsAndSteps tracer span jobs rootAttributes processJobFn log
    = (Returned tt, log ++ [set_status; set_attrs; Forked units])
    ∧ length units = length jobs
    ∧ ∀ i job, jobs !! i = Some job →
        units !! i
        = Some (snd (processJobFn job tracer ctx [])
                ++ match fst (processJobFn job tracer ctx []) with
                   | Returned _ => []
                   | Thrown e =>
                       [ConsoleError ("Failed processing job " +:+ job_name job
                                      +:+ " - " +:+ error_to_string e)]
                   end).
Proof.
  intros set_status set_attrs ctx Hs Ha.
  rewrite handleJobsAndSteps_run. cbv zeta. fold set_status set_attrs.
  rewrite Hs, Ha. eexists. split; [reflexivity|].
  split; [by rewrite length_map|].
  intros i job Hi. rewrite list_lookup_fmap, Hi. simpl. f_equal.
  unfold job_unit, try_catch, console_error. fold ctx.
  destruct (processJobFn job tracer ctx []) as [[[]|e] l]; simpl;
    [by rewrite app_nil_r | done].
Qed.

(** ** The root span, whatever [handleJobsAndSteps] does *)








(** ** The selection of the last completed job *)

(** The reduction keeps the last of the latest jobs: the jobs before the
    one it keeps are not later, the jobs after it are strictly earlier. *)
Lemma later_fold_last_maximum (first : Job) (rest : list Job) :
  ∃ before after,
    first :: rest = before ++ fold_left later_job rest first :: after
    ∧ Forall (fun job => (completed_ms job
                          ≤ completed_ms (fold_left later_job rest first))%Z)
        before
    ∧ Forall (fun job => (completed_ms job
                          < completed_ms (fold_left later_job rest first))%Z)
        after.
Proof.
  induction rest as [|job rest IH] using rev_ind.
  - exists [], []. by repeat split.
  - destruct IH as (before & after & Hsplit & Hbefore & Hafter).
    rewrite fold_left_app. simpl.
    set (kept := fold_left later_job rest first) in *.
    unfold later_job.
    destruct (Z.gtb_spec (completed_ms kept) (completed_ms job)).
    + exists before, (after ++ [job]). split; [|split; [done|]].
      * rewrite app_comm_cons, Hsplit. by rewrite <- app_assoc.
      * apply Forall_app. split; [done|]. by repeat constructor.
    + exists (before ++ kept :: after), []. split; [|split; [|done]].
      * by rewrite app_comm_cons, Hsplit.
      * apply Forall_app. split.
        -- eapply Forall_impl; [exact Hbefore|]. simpl. intros; lia.
        -- constructor; [lia|].
           eapply Forall_impl; [exact Hafter|]. simpl. intros; lia.
Qed.

(** X14. Among the completed jobs the [finally] block selects the last one
    of those that compare latest: no completed job before it in the list
    compares later, and every completed job after it compares strictly
    earlier. *)
Theorem lastCompletedJob_is_last_of_latest (jobs : list Job) (last : Job) :
  lastCompletedJob jobs = Returned last →
  ∃ before after,
    completedJobs jobs = before ++ last :: after
    ∧ Forall (fun job => (completed_ms job ≤ completed_ms last)%Z) before
    ∧ Forall (fun job => (completed_ms job < completed_ms last)%Z) after.
Proof.
  unfold lastCompletedJob, reduce.
  destruct (completedJobs jobs) as [|first rest]; [done|].
  intros [= <-]. apply later_fold_last_maximum.
Qed.

(** X15. A job whose status is not [completed] has no part in the
    selection, wherever it stands in the list and whatever its
    [completed_at] is. *)
Theorem lastCompletedJob_ignores_other_statuses (before after : list Job)
    (job : Job) :
  job_status job ≠ "completed" →
  lastCompletedJob (before ++ job :: after) = lastCompletedJob (before ++ after).
Proof.
  intros Hst. unfold lastCompletedJob, completedJobs.
  rewrite !filter_app, filter_cons_False by done. done.
Qed.

(** X16. The order of the jobs does not change the status of the root
    span, nor whether a last completed job is found, nor how the selected job
    compares; unless that comparison value is 0, it does not change the end
    time of the root span either. *)
Theorem root_span_independent_of_job_order (jobs jobs' : list Job) :
  jobs ≡ₚ jobs' →
  root_status jobs = root_status jobs'
  ∧ ((∃ last, lastCompletedJob jobs = Returned last)
     ↔ (∃ last', lastCompletedJob jobs' = Returned last'))
  ∧ ∀ last last',
      lastCompletedJob jobs = Returned last →
      lastCompletedJob jobs' = Returned last' →
      completed_ms last = completed_ms last'
      ∧ (completed_ms last ≠ 0%Z →
         date_or_undefined (job_completed_at last)
         = date_or_undefined (job_completed_at last')).
Proof.
  intros Hperm.
  assert (∀ job, job ∈ jobs ↔ job ∈ jobs') as Hin
    by (intros job; by rewrite Hperm).
  split; [|split].
  - unfold root_status. f_equal.
    pose proof (anyJobError_true jobs) as H1.
    pose proof (anyJobError_true jobs') as H2.
    destruct (anyJobError jobs), (anyJobError jobs'); try done.
    + destruct (proj1 H1 eq_refl) as (job & Hj & Hne).
      assert (false = true) as Habs
        by (apply H2; exists job; split; [by apply Hin | done]). done.
    + destruct (proj1 H2 eq_refl) as (job & Hj & Hne).
      assert (false = true) as Habs
        by (apply H1; exists job; split; [by apply Hin | done]). done.
  - split; intros [last Hlast];
      destruct (lastCompletedJob_latest _ _ Hlast) as (Hl & Hst & _);
      apply lastCompletedJob_returns; exists last;
      (split; [by apply Hin | done]).
  - intros last last' Hlast Hlast'.
    destruct (lastCompletedJob_latest _ _ Hlast) as (Hl & Hst & Hmax).
    destruct (lastCompletedJob_latest _ _ Hlast') as (Hl' & Hst' & Hmax').
    assert (completed_ms last = completed_ms last') as Heq.
    { apply Hin in Hl. apply Hin in Hl'.
      specialize (Hmax last' Hl' Hst'). specialize (Hmax' last Hl Hst). lia. }
    split; [done|]. intros Hnz.
    rewrite !completed_ms_of_time in *.
    destruct (completion_time last) as [t|] eqn:Ht; [|done].
    destruct (completion_time last') as [t'|] eqn:Ht'; simpl in *; [|done].
    subst t'.
    by rewrite (date_of_completion_time last t Ht),
               (date_of_completion_time last' t Ht').
Qed.

(** ** The action *)

Lemma run_bind_invoke {B} (c : run_call) (k : unit -> RunEff B)
    (rlog : list run_call) :
  run_bind (run_invoke c) k rlog
  = match rt_throws rt rlog c with
    | Some e => (Thrown e, rlog ++ [c])
    | None => k tt (rlog ++ [c])
    end.
Proof. unfold run_bind, run_invoke. by destruct (rt_throws rt rlog c). Qed.

Lemma run_bind_debug {B} (message : string) (k : unit -> RunEff B)
    (rlog : list run_call) :
  run_bind (core_debug message) k rlog = k tt (rlog ++ [CoreDebug message]).
Proof. done. Qed.

Lemma run_bind_assoc {A B C} (m : RunEff A) (f : A -> RunEff B)
    (g : B -> RunEff C) (rlog : list run_call) :
  run_bind (run_bind m f) g rlog
  = run_bind m (fun a => run_bind (f a) g) rlog.
Proof. unfold run_bind. by destruct (m rlog) as [[a|e] rlog1]. Qed.

Lemma run_bind_ret {A B} (a : A) (k : A -> RunEff B) (rlog : list run_call) :
  run_bind (run_ret a) k rlog = k a rlog.
Proof. done. Qed.

(** Following a list of calls: the calls made are those up to and
    including the first one that throws, or all of them; every call before
    the last one made has returned. *)
Lemma follow_plan_stops (outcome : list run_call -> run_call -> Outcome unit)
    (plan : list run_call) (rlog : list run_call) :
  plan ≠ [] →
  ∃ before c after,
    plan = before ++ c :: after
    ∧ (∀ i c', before !! i = Some c' →
               outcome (rlog ++ take i before) c' = Returned tt)
    ∧ (outcome (rlog ++ before) c = Returned tt → after = [])
    ∧ follow_plan outcome plan rlog
      = (outcome (rlog ++ before) c, rlog ++ before ++ [c]).
Proof.
  revert rlog. induction plan as [|c plan IH]; intros rlog Hne; [done|].
  simpl. destruct (outcome rlog c) as [[]|e] eqn:Hc.
  - destruct plan as [|c2 plan].
    + exists [], c, []. rewrite app_nil_r, Hc. by repeat split.
    + destruct (IH (rlog ++ [c])) as (before & c' & after & Hplan & Hret
                                       & Hlast & Hrun); [done|].
      exists (c :: before), c', after.
      rewrite Hplan. split; [done|]. split; [|split].
      * intros [|i] c0 Hi; simpl in Hi.
        -- injection Hi as <-. simpl. by rewrite app_nil_r.
        -- specialize (Hret i c0 Hi). simpl.
           by rewrite <- app_assoc in Hret.
      * intros Hc'. apply Hlast. by rewrite <- app_assoc.
      * rewrite <- Hplan, Hrun. by rewrite <- !app_assoc.
  - exists [], c, plan. rewrite app_nil_r, Hc. by repeat split.
Qed.

(** One call of the [try] block of [run] against the plan: if it throws,
    both stop there. *)
Ltac plan_step :=
  repeat (rewrite run_bind_assoc; cbv beta);
  rewrite ?run_bind_debug; cbv beta;
  repeat (rewrite run_bind_assoc; cbv beta);
  rewrite ?run_bind_ret; cbv beta;
  lazymatch goal with
  | |- run_bind (run_invoke ?c) _ ?l = _ =>
      rewrite run_bind_invoke; cbv beta;
      destruct (rt_throws rt l c) as [e|]; [reflexivity|]
  end.

(** On a [workflow_run] event the [try] block of [run] follows the plan. *)
Lemma run_try_block_follows_plan (inputs : ActionInputs)
    (GITHUB_TOKEN : option string) (githubContext : GithubContext)
    (rlog : list run_call) :
  ctx_eventName githubContext = "workflow_run" →
  run_try_block inputs GITHUB_TOKEN githubContext rlog
  = follow_plan (plan_call_outcome githubContext)
      (run_plan inputs GITHUB_TOKEN githubContext) rlog.
Proof.
  intros Hevent.
  unfold run_try_block, run_plan. cbv zeta.
  rewrite run_bind_debug. rewrite Hevent, String.eqb_refl.
  change (negb true) with false. cbv iota beta.
  unfold createProvider, fetchWorkflowJobs. cbv zeta.
  cbn [follow_plan plan_call_outcome].
  do 11 plan_step.
  unfold span_builders. cbv zeta.
  by destruct (createSpansForJobsAndSteps _ _ _ _ _) as [[[]|e] calls].
Qed.

(** The calls made by the [try] block of [run] are an initial segment of
    the plan. *)
Lemma run_try_block_in_plan (inputs : ActionInputs)
    (GITHUB_TOKEN : option string) (githubContext : GithubContext)
    (rlog : list run_call) :
  ctx_eventName githubContext = "workflow_run" →
  ∃ done,
    done `prefix_of` run_plan inputs GITHUB_TOKEN githubContext
    ∧ snd (run_try_block inputs GITHUB_TOKEN githubContext rlog) = rlog ++ done.
Proof.
  intros Hevent.
  rewrite (run_try_block_follows_plan inputs GITHUB_TOKEN githubContext rlog
             Hevent).
  destruct (follow_plan_stops (plan_call_outcome githubContext)
              (run_plan inputs GITHUB_TOKEN githubContext) rlog)
    as (before & c & after & Hplan & _ & _ & Hrun); [done|].
  exists (before ++ [c]). rewrite Hrun, Hplan. split; [|done].
  exists after. by rewrite <- app_assoc.
Qed.

(** No call of the plan is a failure report. *)
Lemma run_plan_no_setFailed (inputs : ActionInputs)
    (GITHUB_TOKEN : option string) (githubContext : GithubContext)
    (done : list run_call) :
  done `prefix_of` run_plan inputs GITHUB_TOKEN githubContext →
  List.filter is_RunSetFailed done = [].
Proof.
  intros [rest Hplan].
  assert (List.filter is_RunSetFailed
            (run_plan inputs GITHUB_TOKEN githubContext) = []) as Hnone
    by reflexivity.
  rewrite Hplan, List.filter_app in Hnone.
  by apply app_eq_nil in Hnone as [Hnone _].
Qed.

(** The [try] block of [run] on an event other than [workflow_run]. *)
Lemma run_try_block_other_event (inputs : ActionInputs)
    (GITHUB_TOKEN : option string) (githubContext : GithubContext)
    (rlog : list run_call) :
  ctx_eventName githubContext ≠ "workflow_run" →
  run_try_block inputs GITHUB_TOKEN githubContext rlog
  = (Returned tt,
     rlog ++ [ CoreDebug "checking workflow type";
               RunSetFailed "This action only works with workflow_run events" ]).
Proof.
  intros Hevent. apply String.eqb_neq in Hevent.
  unfold run_try_block. cbv zeta.
  rewrite run_bind_debug, Hevent. simpl.
  unfold run_setFailed. by rewrite <- app_assoc.
Qed.

(** X17. On an event other than [workflow_run], [run] reports that the
    action only works with [workflow_run] events and does nothing else: no
    client, no provider, no job listing, no span. *)
Theorem run_rejects_other_events (inputs : ActionInputs)
    (GITHUB_TOKEN : option string) (githubContext : GithubContext)
    (rlog : list run_call) :
  ctx_eventName githubContext ≠ "workflow_run" →
  run inputs GITHUB_TOKEN githubContext rlog
  = (Returned tt,
     rlog ++ [ CoreDebug "checking workflow type";
               RunSetFailed "This action only works with workflow_run events" ]).
Proof.
  intros Hevent. unfold run, run_try_catch.
  by rewrite (run_try_block_other_event inputs GITHUB_TOKEN githubContext rlog
                Hevent).
Qed.

(** X18. On a [workflow_run] event, [run] makes the calls of its plan in
    order and stops at the first one that throws.  The calls made are an
    initial segment [before ++ [c]] of the plan; every call of [before] has
    returned; [c] is the last call of the plan unless it has thrown; the
    [try] block ends as [c] ends.  So the span builders, which come last in
    the plan, run only after every call before them has returned.  After
    these calls [run] reports the failure, if [c] has thrown an instance of
    [Error], and calls nothing else. *)
Theorem run_follows_plan (inputs : ActionInputs)
    (GITHUB_TOKEN : option string) (githubContext : GithubContext)
    (rlog : list run_call) :
  ctx_eventName githubContext = "workflow_run" →
  ∃ before c after,
    run_plan inputs GITHUB_TOKEN githubContext = before ++ c :: after
    ∧ (∀ i c', before !! i = Some c' →
               plan_call_outcome githubContext (rlog ++ take i before) c'
               = Returned tt)
    ∧ (plan_call_outcome githubContext (rlog ++ before) c = Returned tt →
       after = [])
    ∧ run_try_block inputs GITHUB_TOKEN githubContext rlog
      = (plan_call_outcome githubContext (rlog ++ before) c,
         rlog ++ before ++ [c])
    ∧ snd (run inputs GITHUB_TOKEN githubContext rlog)
      = rlog ++ before ++ [c]
        ++ match plan_call_outcome githubContext (rlog ++ before) c with
           | Returned _ => []
           | Thrown e =>
               if rt_instanceof_Error rt e
               then [RunSetFailed (error_message e)] else []
           end.
Proof.
  intros Hevent.
  destruct (follow_plan_stops (plan_call_outcome githubContext)
              (run_plan inputs GITHUB_TOKEN githubContext) rlog)
    as (before & c & after & Hplan & Hret & Hlast & Hrun); [done|].
  rewrite <- (run_try_block_follows_plan inputs GITHUB_TOKEN githubContext
                rlog Hevent) in Hrun.
  exists before, c, after.
  split; [done|]. split; [done|]. split; [done|]. split; [done|].
  unfold run, run_try_catch. rewrite Hrun.
  destruct (plan_call_outcome githubContext (rlog ++ before) c) as [[]|e].
  - reflexivity.
  - destruct (rt_instanceof_Error rt e).
    + unfold run_setFailed. simpl. by rewrite <- !app_assoc.
    + reflexivity.
Qed.

(** X19. [run] never throws.  It reports a failure of its own at most
    once: the message of the [Error] that its [try] block threw, or the
    message about the event; a thrown value that is not an instance of
    [Error] is dropped without any report. *)
Theorem run_never_throws (inputs : ActionInputs)
    (GITHUB_TOKEN : option string) (githubContext : GithubContext)
    (rlog : list run_call) :
  fst (run inputs GITHUB_TOKEN githubContext rlog) = Returned tt
  ∧ ∃ new,
      snd (run inputs GITHUB_TOKEN githubContext rlog) = rlog ++ new
      ∧ (length (List.filter is_RunSetFailed new) ≤ 1)%nat
      ∧ (∀ e, fst (run_try_block inputs GITHUB_TOKEN githubContext rlog)
              = Thrown e →
              List.filter is_RunSetFailed new
              = if rt_instanceof_Error rt e
                then [RunSetFailed (error_message e)] else []).
Proof.
  destruct (decide (ctx_eventName githubContext = "workflow_run"))
    as [Hevent|Hevent].
  - destruct (run_try_block_in_plan inputs GITHUB_TOKEN githubContext rlog
                Hevent) as (done & Hprefix & Hlog).
    pose proof (run_plan_no_setFailed _ _ _ _ Hprefix) as Hnone.
    unfold run, run_try_catch.
    destruct (run_try_block inputs GITHUB_TOKEN githubContext rlog)
      as [[[]|e] rlog1]; simpl in Hlog; subst rlog1; simpl.
    + split; [done|]. exists done. rewrite Hnone. simpl.
      split; [done|]. split; [lia|done].
    + destruct (rt_instanceof_Error rt e) eqn:Hinst; simpl.
      * split; [done|]. exists (done ++ [RunSetFailed (error_message e)]).
        rewrite <- app_assoc, List.filter_app, Hnone. simpl.
        split; [done|]. split; [lia|]. intros e' [= <-]. by rewrite Hinst.
      * split; [done|]. exists done. rewrite Hnone. simpl.
        split; [done|]. split; [lia|]. intros e' [= <-]. by rewrite Hinst.
  - unfold run, run_try_catch.
    rewrite (run_try_block_other_event inputs GITHUB_TOKEN githubContext rlog
               Hevent). simpl.
    split; [done|]. eexists. split; [reflexivity|]. simpl.
    split; [lia|done].
Qed.






(** ** The shape of the tree *)

Lemma step_calls_opened_in (steps : list WorkflowStep) (jobCtx : Context)
    (spans : list Span) :
  Forall (opened_in (active_span jobCtx))
    (concat (zip_with (fun step span => step_calls step jobCtx span)
               steps spans)).
Proof.
  revert spans. induction steps as [|step steps IH]; intros [|span spans];
    cbn [zip_with concat]; try by constructor.
  apply Forall_app. split; [|apply IH].
  unfold step_calls, step_start_call.
  repeat constructor; intros name options ctx Heq; congruence.
Qed.

Lemma processSteps_opened_in (steps : list WorkflowStep) (tracer : Tracer)
    (jobCtx : Context) (log : list call) :
  ∃ new,
    snd (processSteps steps tracer jobCtx log) = log ++ new
    ∧ Forall (opened_in (active_span jobCtx)) new.
Proof.
  destruct (processSteps_any steps tracer jobCtx log)
    as [(spans & Hlen & Hr)
       | (e & done & failing & rest & spans & span & k & _ & Hlen & Hk & Hr)];
    rewrite Hr; simpl; eexists; (split; [reflexivity|]).
  - apply step_calls_opened_in.
  - apply Forall_app. split; [apply step_calls_opened_in|].
    apply Forall_take. unfold step_calls, step_start_call.
    repeat constructor; intros name options ctx Heq; congruence.
Qed.

(** X24. Whatever the collaborators do, once [processJob] has opened the
    job span every span it opens afterwards is opened in a context whose
    active span is the job span: the step spans are children of their job's
    span, and of no other. *)
Theorem step_spans_are_children_of_the_job_span (job : Job) (tracer : Tracer)
    (parentCtx : Context) (log : list call) :
  throws log (job_start_call job parentCtx) = None →
  ∃ rest,
    snd (processJob job tracer parentCtx log)
    = log ++ job_start_call job parentCtx :: rest
    ∧ Forall (opened_in (Some (job_span tracer log job parentCtx))) rest.
Proof.
  intros Hstart.
  pose proof (processJob_run job tracer parentCtx log Hstart) as Hrun.
  cbv zeta in Hrun. rewrite Hrun. clear Hrun. simpl.
  set (span := job_span tracer log job parentCtx).
  assert (∃ new,
            snd ((setSpanStatus span (strict_eq (job_conclusion job) "success") ;;
                  match job_steps job with
                  | Some steps =>
                      processSteps steps tracer (steps_context tracer parentCtx span)
                  | None => ret tt
                  end)%eff (log ++ [job_start_call job parentCtx]))
            = (log ++ [job_start_call job parentCtx]) ++ new
            ∧ Forall (opened_in (Some span)) new) as (new & Hnew & Hin).
  { unfold bind. rewrite setSpanStatus_run.
    destruct (call_outcome _ _) as [[]|e]; simpl.
    - destruct (job_steps job) as [steps|].
      + destruct (processSteps_opened_in steps tracer
                    (steps_context tracer parentCtx span)
                    ((log ++ [job_start_call job parentCtx])
                     ++ [SpanSetStatus span
                           (status_of (strict_eq (job_conclusion job) "success"))]))
          as (new & Hnew & Hin).
        eexists (_ :: new). rewrite Hnew, <- app_assoc. split; [done|].
        constructor; [by intros name options ctx | exact Hin].
      + eexists [_]. split; [done|].
        repeat constructor; by intros name options ctx.
    - eexists [_]. split; [done|].
      repeat constructor; by intros name options ctx. }
  rewrite Hnew.
  destruct (fst _).
  - exists (new ++ [SpanEnd span (date_or_undefined (job_completed_at job))]).
    rewrite <- !app_assoc. split; [done|].
    apply Forall_app. split; [done|].
    repeat constructor; by intros name options ctx.
  - exists (new ++ [CoreSetFailed ("Failed to process job " +:+ job_name job);
                    SpanEnd span (date_or_undefined (job_completed_at job))]).
    rewrite <- !app_assoc. split; [done|].
    apply Forall_app. split; [done|].
    repeat constructor; by intros name options ctx.
Qed.

(** X25. Once the two calls on the root span have returned, every unit of
    work of [handleJobsAndSteps] begins by opening the span of its job, named
    [Job: ] and the name of the job, in a context whose active span is the
    root span: the job spans are children of the root span, one per job, in
    the order of the list. *)
Theorem job_spans_are_children_of_the_root_span (tracer : Tracer) (span : Span)
    (jobs : list Job) (rootAttributes : RawAttributes) (log : list call) :
  let set_status := SpanSetStatus span (root_status jobs) in
  let set_attrs :=
    SpanSetAttributes span (removeUndefinedProperties rootAttributes) in
  throws log set_status = None →
  throws (log ++ [set_status]) set_attrs = None →
  ∃ units,
    snd (handleJobsAndSteps tracer span jobs rootAttributes processJob log)
    = log ++ [set_status; set_attrs; Forked units]
    ∧ Forall2
        (fun job unit_log =>
           ∃ ctx rest,
             unit_log
             = TracerStartActiveSpan ("Job: " +:+ job_name job)
                 (job_span_options job) ctx :: rest
             ∧ active_span ctx = Some span)
        jobs units.
Proof.
  intros set_status set_attrs Hs Ha.
  rewrite handleJobsAndSteps_run. cbv zeta. fold set_status set_attrs.
  rewrite Hs, Ha. eexists. split; [reflexivity|].
  apply Forall2_fmap_r, Forall_Forall2_diag, Forall_forall.
  intros job _.
  exists (trace_setSpan ROOT_CONTEXT span).
  destruct (job_unit_log tracer span job []) as (tail & Hlog & _).
  rewrite Hlog. clear Hlog.
  destruct (throws [] (job_start_call job (trace_setSpan ROOT_CONTEXT span)))
    as [e|] eqn:Hstart.
  - unfold processJob, startActiveSpan.
    unfold job_start_call in Hstart. rewrite Hstart. by eexists.
  - destruct (processJob_opens_and_closes job tracer
                (trace_setSpan ROOT_CONTEXT span) [] Hstart) as [middle Hpj].
    rewrite Hpj. by eexists.
Qed.

End SpanTree.

(** ** The builders on concrete inputs *)

(** [iso_parse] agrees with [Date.parse] on the timestamps used below. *)
Example iso_parse_new_year : iso_parse "2023-01-01T00:00:00Z" = Some 1672531200000%Z.
Proof. reflexivity. Qed.

Example iso_parse_not_a_date : iso_parse "not a date" = None.
Proof. reflexivity. Qed.

(** [`${e}`] for [new Error('')], for a [TypeError] with a message, and
    for a thrown value that is not an [Error] object, the string [oops]. *)
Example error_to_string_cases :
  error_to_string {| error_name := "Error"; error_message := "" |} = "Error"
  ∧ error_to_string {| error_name := "TypeError"; error_message := "x is null" |}
    = "TypeError: x is null"
  ∧ error_to_string {| error_name := ""; error_message := "oops" |} = "oops".
Proof. repeat split. Qed.

(** The context of the step spans of a job processed under the root span
    [0]: it carries the job span [1], with and without a context manager. *)
Example steps_context_carries_the_job_span :
  steps_context counting_tracer (trace_setSpan ROOT_CONTEXT 0%nat) 1%nat
  = trace_setSpan ROOT_CONTEXT 1%nat
  ∧ active_span
      (steps_context managed_tracer (trace_setSpan ROOT_CONTEXT 0%nat) 1%nat)
    = Some 1%nat.
Proof. split; reflexivity. Qed.

(** The scenario of the specification: a successful job completed at T1
    and a failed job completed at T2 > T1 give the root span the status ERROR
    and the end time T2. *)
Example two_jobs_scenario :
  ∃ forked,
    createSpansForJobsAndSteps iso_parse quiet "2023-01-01T00:00:00Z"
      [green_job; red_job] counting_tracer ∅ []
    = (Returned tt,
       [ root_start_call iso_parse "2023-01-01T00:00:00Z";
         SpanSetStatus 0%nat {| status_code := ERROR; status_message := None |};
         SpanSetAttributes 0%nat ∅;
         Forked forked;
         DiagDebug "completed at: 2023-01-01T00:20:00Z";
         SpanEnd 0%nat (Some (Some 1672532400000%Z)) ]).
Proof. eexists. vm_compute. reflexivity. Qed.

(** A job that concluded with [success] is OK even when one of its steps
    failed. *)
Example green_job_with_failed_step :
  ∃ rest,
    snd (processJob iso_parse quiet green_job counting_tracer ROOT_CONTEXT [])
    = job_start_call iso_parse green_job ROOT_CONTEXT
      :: SpanSetStatus 0%nat {| status_code := OK; status_message := Some "OK" |}
      :: rest.
Proof. eexists. vm_compute. reflexivity. Qed.

(** The scenario of the specification: a job with an empty list of steps
    opens no step span; its own span is opened, given its status and ended. *)
Example job_without_steps :
  processJob iso_parse quiet
    (sample_job "build" "completed" (Some "failure")
       (Some "2023-01-01T00:10:00Z") (Some []))
    counting_tracer ROOT_CONTEXT []
  = (Returned tt,
     [ job_start_call iso_parse
         (sample_job "build" "completed" (Some "failure")
            (Some "2023-01-01T00:10:00Z") (Some []))
         ROOT_CONTEXT;
       SpanSetStatus 0%nat
         {| status_code := ERROR; status_message := Some "ERROR" |};
       SpanEnd 0%nat (Some (Some 1672531800000%Z)) ]).
Proof. vm_compute. reflexivity. Qed.

(** C3. On the empty job list, with collaborators that never throw,
    [createSpansForJobsAndSteps] throws the [TypeError] of the reduction of an
    empty array, and the root span it opened is not ended: its log stops
    after the fan-out. *)
Theorem empty_job_list_throws :
  createSpansForJobsAndSteps iso_parse quiet "2023-01-01T00:00:00Z" []
    counting_tracer ∅ []
  = (Thrown {| error_name := "TypeError";
               error_message := "Reduce of empty array with no initial value" |},
     [ root_start_call iso_parse "2023-01-01T00:00:00Z";
       SpanSetStatus 0%nat {| status_code := OK; status_message := None |};
       SpanSetAttributes 0%nat ∅;
       Forked [] ]).
Proof. vm_compute. reflexivity. Qed.

(** C4. On a list whose only job is still running, with collaborators that
    never throw, the computation of the end time throws inside the [finally]
    block and [span.end] is not called on the root span: the log of
    [createSpansForJobsAndSteps] has no end call. *)
Theorem running_job_leaves_root_span_open :
  fst (createSpansForJobsAndSteps iso_parse quiet "2023-01-01T00:00:00Z"
         [running_job] counting_tracer ∅ [])
  = Thrown {| error_name := "TypeError";
              error_message := "Reduce of empty array with no initial value" |}
  ∧ end_calls
      (snd (createSpansForJobsAndSteps iso_parse quiet "2023-01-01T00:00:00Z"
              [running_job] counting_tracer ∅ []))
    = [].
Proof. split; vm_compute; reflexivity. Qed.

(** C10, the counterexample.  The only completed job has the
    [completed_at] string [not a date]: it has no completion time and is
    selected, and the root span is ended with the Invalid Date, not without
    an end time. *)
Lemma undated_job_ends_with_invalid_date :
  ¬ ends_without_time_when_selected_has_none iso_parse quiet
      "2023-01-01T00:00:00Z" [undated_job] counting_tracer ∅ [].
Proof.
  intros Hclaim.
  destruct (Hclaim undated_job eq_refl eq_refl) as (before & span & Hlog).
  assert (snd (createSpansForJobsAndSteps iso_parse quiet
                 "2023-01-01T00:00:00Z" [undated_job] counting_tracer ∅ [])
          = [ root_start_call iso_parse "2023-01-01T00:00:00Z";
              SpanSetStatus 0%nat {| status_code := OK; status_message := None |};
              SpanSetAttributes 0%nat ∅;
              Forked [snd (job_unit counting_tracer 0%nat
                             (processJob iso_parse quiet) undated_job [])];
              DiagDebug "completed at: not a date" ]
            ++ [SpanEnd 0%nat (Some None)]) as Hrun
    by (vm_compute; reflexivity).
  rewrite Hrun in Hlog.
  apply app_inj_tail in Hlog as [_ Hend].
  discriminate Hend.
Qed.


(** ** The claims at concrete inputs *)


(** C5 on a batch of two jobs: the tracer refuses the span of the step
    [boom] of the first job; the second job has no such step.  Both job spans
    are ended, each at the date of the job's [completed_at]. *)
Lemma job_failure_is_isolated_witness :
  let ctx := trace_setSpan ROOT_CONTEXT 0%nat in
  (∃ before,
     processJob iso_parse boom_span boom_job counting_tracer ctx []
     = (Returned tt,
        before ++ [ CoreSetFailed "Failed to process job deploy";
                    SpanEnd 0%nat (Some (Some 1672533000000%Z)) ]))
  ∧ fst (handleJobsAndSteps boom_span counting_tracer 0%nat [boom_job; red_job]
           ∅ (processJob iso_parse boom_span) [])
    = Returned tt
  ∧ ∃ middle tail,
      snd (job_unit counting_tracer 0%nat (processJob iso_parse boom_span)
             red_job [])
      = job_start_call iso_parse red_job ctx :: middle
        ++ SpanEnd 0%nat (Some (Some 1672532400000%Z)) :: tail.
Proof.
  intros ctx.
  destruct (job_failure_is_isolated iso_parse boom_span counting_tracer 0%nat
              [boom_job; red_job] ∅ [] boom_job boom_steps
              {| error_name := "Error"; error_message := "span refused" |})
    as ((endTime & Hjob & Hset & _) & Hall & Hothers).
  - reflexivity.
  - reflexivity.
  - apply list_elem_of_here.
  - reflexivity.
  - reflexivity.
  - reflexivity.
  - vm_compute. reflexivity.
  - split; [|split].
    + fold ctx in Hjob. rewrite Hjob.
      rewrite (Hset "2023-01-01T00:30:00Z" eq_refl); [|discriminate].
      eexists. f_equal. rewrite <- app_assoc. reflexivity.
    + rewrite Hall. reflexivity.
    + destruct (Hothers red_job) as (middle & tail & endTime' & Hlog & _ & Hend & _).
      * apply list_elem_of_further, list_elem_of_here.
      * reflexivity.
      * exists middle, tail. rewrite Hlog.
        rewrite (Hend "2023-01-01T00:20:00Z" eq_refl); [|discriminate].
        reflexivity.
Defined.

(** C6 on a successful job one of whose steps failed: the job span [0] is
    given the status OK, and the ERROR of the failed step is set on the span
    of that step. *)
Lemma job_status_from_own_conclusion_witness :
  ∃ status middle,
    snd (processJob iso_parse quiet green_job counting_tracer ROOT_CONTEXT [])
    = [] ++ job_start_call iso_parse green_job ROOT_CONTEXT
         :: SpanSetStatus 0%nat status
         :: middle
         ++ [SpanEnd 0%nat
               (date_or_undefined iso_parse (job_completed_at green_job))]
    ∧ status_code status = OK
    ∧ (∀ sp st, SpanSetStatus sp st ∈ middle → sp ≠ 0%nat).
Proof.
  destruct (job_status_from_own_conclusion iso_parse quiet green_job
              counting_tracer ROOT_CONTEXT [])
    as (status & middle & Hlog & Hok & _ & _ & Hother).
  - reflexivity.
  - exists status, middle. split; [exact Hlog|].
    split; [apply Hok; reflexivity|].
    apply Hother. intros l name options ctx. simpl. discriminate.
Defined.


(** The spans of [two_steps] are opened in the order of the list, [test]
    (number 2) before [checkout] (number 1). *)
Example two_steps_opened_in_list_order :
  opened_names
    (snd (processSteps iso_parse quiet two_steps counting_tracer ROOT_CONTEXT []))
  = ["test"; "checkout"].
Proof. vm_compute. reflexivity. Qed.


(** C10 as the code has it, on the job whose [completed_at] is not a
    date. *)
Lemma missing_completion_time_compares_as_zero_witness :
  completed_ms iso_parse undated_job = 0%Z
  ∧ (∃ before,
       snd (createSpansForJobsAndSteps iso_parse quiet "2023-01-01T00:00:00Z"
              [undated_job] counting_tracer ∅ [])
       = before
         ++ [SpanEnd (root_span iso_parse counting_tracer [] "2023-01-01T00:00:00Z")
               (date_or_undefined iso_parse (job_completed_at undated_job))])
  ∧ date_or_undefined iso_parse (job_completed_at undated_job) = Some None.
Proof.
  destruct (missing_completion_time_compares_as_zero iso_parse quiet
              "2023-01-01T00:00:00Z" [undated_job] counting_tracer ∅ []
              undated_job)
    as (Hzero & _ & Hend & _ & Hinvalid).
  - reflexivity.
  - reflexivity.
  - split; [|split].
    + apply Hzero. reflexivity.
    + exact Hend.
    + apply (Hinvalid "not a date"); [reflexivity | discriminate | reflexivity].
Defined.

(** ** The further properties at concrete inputs *)

(** X5 on the steps [checkout; boom] with a tracer that refuses [boom]. *)
Lemma processSteps_stops_at_first_throw_witness :
  ∃ done failing rest spans span k,
    boom_steps = done ++ failing :: rest
    ∧ length spans = length done
    ∧ (1 ≤ k ≤ 4)%nat
    ∧ snd (processSteps iso_parse boom_span boom_steps counting_tracer
             ROOT_CONTEXT [])
      = [] ++ concat (zip_with
                        (fun step span => step_calls iso_parse step ROOT_CONTEXT span)
                        done spans)
        ++ take k (step_calls iso_parse failing ROOT_CONTEXT span).
Proof.
  apply (processSteps_stops_at_first_throw iso_parse boom_span boom_steps
           counting_tracer ROOT_CONTEXT []
           {| error_name := "Error"; error_message := "span refused" |}).
  vm_compute. reflexivity.
Defined.

(** X7 on the job whose step [boom] is refused: the job processor
    returns. *)
Lemma processJob_exception_safety_witness :
  fst (processJob iso_parse boom_span boom_job counting_tracer ROOT_CONTEXT [])
  = Returned tt.
Proof.
  destruct (proj2 (processJob_exception_safety iso_parse boom_span boom_job
                     counting_tracer ROOT_CONTEXT []))
    as (new & Hrun & _).
  - reflexivity.
  - intros l. reflexivity.
  - rewrite Hrun. reflexivity.
Defined.

(** X8 on a job with steps and spans that refuse [setStatus]. *)
Lemma processJob_status_throw_skips_steps_witness :
  snd (processJob iso_parse status_refused green_job counting_tracer
         ROOT_CONTEXT [])
  = [] ++ [ job_start_call iso_parse green_job ROOT_CONTEXT;
            SpanSetStatus 0%nat
              {| status_code := OK; status_message := Some "OK" |};
            CoreSetFailed "Failed to process job build";
            SpanEnd 0%nat (Some (Some 1672531800000%Z)) ].
Proof.
  apply (processJob_status_throw_skips_steps iso_parse status_refused green_job
           counting_tracer ROOT_CONTEXT []
           {| error_name := "Error"; error_message := "status refused" |});
    reflexivity.
Defined.

(** X9 on a job without [steps]. *)
Lemma processJob_without_steps_witness :
  snd (processJob iso_parse quiet red_job counting_tracer ROOT_CONTEXT [])
  = [] ++ [ job_start_call iso_parse red_job ROOT_CONTEXT;
            SpanSetStatus 0%nat
              {| status_code := ERROR; status_message := Some "ERROR" |};
            SpanEnd 0%nat (Some (Some 1672532400000%Z)) ].
Proof.
  apply (processJob_without_steps iso_parse quiet red_job counting_tracer
           ROOT_CONTEXT []).
  - left. reflexivity.
  - reflexivity.
  - reflexivity.
Defined.


(** X11 with a root span that refuses [setStatus]: nothing follows the
    status call. *)
Lemma handleJobsAndSteps_throws_before_dispatch_witness :
  snd (handleJobsAndSteps status_refused counting_tracer 0%nat
         [green_job; red_job] ∅ (processJob iso_parse status_refused) [])
  = [SpanSetStatus 0%nat (root_status [green_job; red_job])].
Proof.
  destruct (handleJobsAndSteps_throws_before_dispatch status_refused
              counting_tracer 0%nat [green_job; red_job] ∅
              (processJob iso_parse status_refused) []
              {| error_name := "Error"; error_message := "status refused" |})
    as [[_ Hlog] | (Habs & _)].
  - reflexivity.
  - exact Hlog.
  - discriminate Habs.
Defined.

(** X12 on two jobs, with a job processor that throws [new Error('')]
    for every job: each unit of work ends with its [console.error]. *)
Lemma handleJobsAndSteps_runs_every_job_witness :
  handleJobsAndSteps quiet counting_tracer 0%nat [green_job; red_job] ∅
    (fun _ _ _ =>
       lift (Thrown {| error_name := "Error"; error_message := "" |})) []
  = (Returned tt,
     [ SpanSetStatus 0%nat (root_status [green_job; red_job]);
       SpanSetAttributes 0%nat (removeUndefinedProperties ∅);
       Forked [ [ConsoleError "Failed processing job build - Error"];
                [ConsoleError "Failed processing job test - Error"] ] ]).
Proof.
  destruct (handleJobsAndSteps_runs_every_job quiet counting_tracer 0%nat
              [green_job; red_job] ∅
              (fun _ _ _ =>
                 lift (Thrown {| error_name := "Error"; error_message := "" |}))
              [])
    as (units & Hrun & Hlen & Hunits).
  - reflexivity.
  - reflexivity.
  - pose proof (Hunits 0%nat green_job eq_refl) as H0.
    pose proof (Hunits 1%nat red_job eq_refl) as H1.
    destruct units as [|u0 [|u1 [|u2 units]]]; try discriminate Hlen.
    injection H0 as ->. injection H1 as ->.
    rewrite Hrun. reflexivity.
Defined.


(** X14 on the two completed jobs. *)
Lemma lastCompletedJob_is_last_of_latest_witness :
  ∃ before after,
    completedJobs [green_job; red_job] = before ++ red_job :: after
    ∧ Forall (fun job => (completed_ms iso_parse job
                          ≤ completed_ms iso_parse red_job)%Z) before
    ∧ Forall (fun job => (completed_ms iso_parse job
                          < completed_ms iso_parse red_job)%Z) after.
Proof.
  apply (lastCompletedJob_is_last_of_latest iso_parse [green_job; red_job]
           red_job).
  reflexivity.
Defined.

(** X15 on a running job between two completed jobs. *)
Lemma lastCompletedJob_ignores_other_statuses_witness :
  lastCompletedJob iso_parse ([green_job] ++ running_job :: [red_job])
  = lastCompletedJob iso_parse ([green_job] ++ [red_job]).
Proof.
  apply (lastCompletedJob_ignores_other_statuses iso_parse [green_job]
           [red_job] running_job).
  discriminate.
Defined.

(** X16 on the two completed jobs in both orders. *)
Lemma root_span_independent_of_job_order_witness :
  root_status [green_job; red_job] = root_status [red_job; green_job].
Proof.
  apply (root_span_independent_of_job_order iso_parse [green_job; red_job]
           [red_job; green_job]).
  apply perm_swap.
Defined.

(** When the latest comparison value is 0 the order does decide the end
    time: of a job without [completed_at] and a job whose [completed_at] is
    not a date, the one that comes last is selected, and the root span is
    ended with the Invalid Date or without an end time accordingly. *)
Example end_time_depends_on_order_at_zero :
  lastCompletedJob iso_parse [unstamped_job; undated_job] = Returned undated_job
  ∧ lastCompletedJob iso_parse [undated_job; unstamped_job]
    = Returned unstamped_job
  ∧ date_or_undefined iso_parse (job_completed_at undated_job) = Some None
  ∧ date_or_undefined iso_parse (job_completed_at unstamped_job) = None.
Proof. repeat split. Qed.

(** X17 on a [push] event. *)
Lemma run_rejects_other_events_witness :
  run iso_parse quiet (sample_runtime [green_job]) sample_inputs None
    push_event []
  = (Returned tt,
     [] ++ [ CoreDebug "checking workflow type";
             RunSetFailed "This action only works with workflow_run events" ]).
Proof.
  apply (run_rejects_other_events iso_parse quiet (sample_runtime [green_job])
           sample_inputs None push_event []).
  discriminate.
Defined.

(** X18 on a [workflow_run] event whose job listing is refused: [run]
    stops in the middle of its plan, at the listing, and reports the
    message of the exception. *)
Lemma run_follows_plan_witness :
  ∃ before after,
    run_plan iso_parse quiet offline_runtime sample_inputs None
      workflow_run_event
    = before ++ ListJobsForWorkflowRun "octo" "demo" 456 :: after
    ∧ after ≠ []
    ∧ snd (run iso_parse quiet offline_runtime sample_inputs None
             workflow_run_event [])
      = before ++ [ ListJobsForWorkflowRun "octo" "demo" 456;
                    RunSetFailed "Bad credentials" ].
Proof.
  destruct (run_follows_plan iso_parse quiet offline_runtime sample_inputs None
              workflow_run_event [])
    as (before & c & after & Hplan & _ & _ & Hrun & Hlog).
  - reflexivity.
  - assert (run_try_block iso_parse quiet offline_runtime sample_inputs None
              workflow_run_event []
            = (Thrown {| error_name := "HttpError";
                         error_message := "Bad credentials" |},
               take 12 (run_plan iso_parse quiet offline_runtime sample_inputs
                          None workflow_run_event)
               ++ [ListJobsForWorkflowRun "octo" "demo" 456])) as Htry
      by (vm_compute; reflexivity).
    rewrite Htry in Hrun.
    pose proof (f_equal fst Hrun) as Houtcome.
    pose proof (f_equal snd Hrun) as Hcalls.
    cbn [fst snd] in Houtcome, Hcalls.
    apply (app_inj_tail _ before) in Hcalls as [_ <-].
    rewrite <- Houtcome in Hlog.
    exists before, after. split; [exact Hplan|]. split; [|exact Hlog].
    intros ->. apply (f_equal last) in Hplan.
    rewrite last_snoc in Hplan. vm_compute in Hplan. discriminate Hplan.
Defined.





(** X24 on a job with two steps. *)
Lemma step_spans_are_children_of_the_job_span_witness :
  ∃ rest,
    snd (processJob iso_parse quiet green_job counting_tracer ROOT_CONTEXT [])
    = [] ++ job_start_call iso_parse green_job ROOT_CONTEXT :: rest
    ∧ Forall (opened_in
                (Some (job_span iso_parse counting_tracer [] green_job
                         ROOT_CONTEXT))) rest.
Proof.
  apply (step_spans_are_children_of_the_job_span iso_parse quiet green_job
           counting_tracer ROOT_CONTEXT []).
  reflexivity.
Defined.

(** X25 on two jobs under the root span [7]. *)
Lemma job_spans_are_children_of_the_root_span_witness :
  ∃ units,
    snd (handleJobsAndSteps quiet counting_tracer 7%nat [green_job; red_job] ∅
           (processJob iso_parse quiet) [])
    = [] ++ [ SpanSetStatus 7%nat (root_status [green_job; red_job]);
              SpanSetAttributes 7%nat (removeUndefinedProperties ∅);
              Forked units ]
    ∧ Forall2
        (fun job unit_log =>
           ∃ ctx rest,
             unit_log
             = TracerStartActiveSpan ("Job: " +:+ job_name job)
                 (job_span_options iso_parse job) ctx :: rest
             ∧ active_span ctx = Some 7%nat)
        [green_job; red_job] units.
Proof.
  apply (job_spans_are_children_of_the_root_span iso_parse quiet
           counting_tracer 7%nat [green_job; red_job] ∅ []);
    reflexivity.
Defined.
